(** * A shallow embedding of program.py: the voxel world

    The script keeps no coordinate-indexed table.  Every block is an engine
    entity (a [Voxel], subclass of Button) that registers itself in the
    engine's scene when constructed and leaves it when destroyed.  The
    embedding follows that: the world is the list of live voxels in creation
    order, an entity is identified by its place in that list, and the
    handlers are state transformers that may raise a Python exception.

    Numbers.  Block coordinates are integers (generation passes integers and
    the block model's face normals are axis vectors).  The player's position
    and the noise samples are floats; a finite float is a rational number and
    Python's [floor], [round] and [<] act on its exact value, so they are
    taken in [Q].

    Text.  A Python string is held as its UTF-8 bytes, so equality and
    dictionary lookup by key are those of Python.  What [str.isdigit] and
    [int] answer is written out where it depends on ASCII characters only;
    beyond that it depends on the interpreter's character tables and limits,
    which are taken as a parameter ([PyText]). *)

From Stdlib Require Import ZArith QArith Qround List String Ascii Bool Lia Lqa.
Import ListNotations.

Open Scope Z_scope.

(** ** Python exceptions *)

Inductive exn : Type :=
| ValueError (msg : string)
| KeyError (key : string).

Inductive Result (A : Type) : Type :=
| Ok (a : A)
| Raise (e : exn).

Arguments Ok {A} a.
Arguments Raise {A} e.

Definition bind {A B : Type} (m : Result A) (k : A -> Result B) : Result B :=
  match m with
  | Ok a => k a
  | Raise e => Raise e
  end.

Notation "x <- m ;; k" := (bind m (fun x => k))
  (at level 61, m at next level, right associativity).

(** A [for] loop whose body updates a state and may raise. *)
Fixpoint for_each {A S : Type} (xs : list A) (body : A -> S -> Result S)
  (s : S) : Result S :=
  match xs with
  | [] => Ok s
  | a :: rest => s' <- body a s ;; for_each rest body s'
  end.

(** [range(start, stop)] and [range(start, stop, -1)]. *)
Definition py_range (start stop : Z) : list Z :=
  map (fun k => start + Z.of_nat k) (seq 0 (Z.to_nat (stop - start))).

Definition py_range_down (start stop : Z) : list Z :=
  map (fun k => start - Z.of_nat k) (seq 0 (Z.to_nat (start - stop))).

(** ** Python string and number helpers used by the script *)

Definition is_ascii_digit (c : ascii) : bool :=
  let n := nat_of_ascii c in (48 <=? n)%nat && (n <=? 57)%nat.

(** Non-empty and every character one of 0 to 9. *)
Definition ascii_isdigit (s : string) : bool :=
  match s with
  | EmptyString => false
  | _ => forallb is_ascii_digit (list_ascii_of_string s)
  end.

(** Every byte below 128: the text has no character outside ASCII. *)
Definition is_ascii (s : string) : bool :=
  forallb (fun c => (nat_of_ascii c <? 128)%nat) (list_ascii_of_string s).

(** The value of a string of the digits 0 to 9, read in base ten. *)
Definition int_of_digits (s : string) : Z :=
  fold_left (fun acc c => 10 * acc + (Z.of_nat (nat_of_ascii c) - 48))
            (list_ascii_of_string s) 0.

(** The interpreter's answers outside the part written out above.
    [str.isdigit] is also true of digits beyond ASCII (superscripts, digits
    of other scripts), by the Unicode character database; [int] raises
    [ValueError] on a digit that is not a decimal one and on a digit string
    longer than the interpreter's conversion limit, and converts decimal
    digits of other scripts.  Both are functions of the string alone.
    Nothing is assumed of them: a theorem stated for every [PyText] holds
    for the interpreter the script runs on. *)
Record PyText : Type := mkPyText {
  str_isdigit : string -> bool;
  str_int : string -> Result Z
}.

(** [s.isdigit()]. *)
Definition isdigit (U : PyText) (s : string) : bool :=
  if is_ascii s then ascii_isdigit s else str_isdigit U s.

(** [int(s)].  A string of at most 640 digits 0 to 9 is always converted
    (the conversion limit cannot be set lower than 640 digits). *)
Definition py_int (U : PyText) (s : string) : Result Z :=
  if ascii_isdigit s && (String.length s <=? 640)%nat
  then Ok (int_of_digits s)
  else str_int U s.

Definition upper (c : ascii) : ascii :=
  let n := nat_of_ascii c in
  if (97 <=? n)%nat && (n <=? 122)%nat then ascii_of_nat (n - 32) else c.

Definition lower (c : ascii) : ascii :=
  let n := nat_of_ascii c in
  if (65 <=? n)%nat && (n <=? 90)%nat then ascii_of_nat (n + 32) else c.

Fixpoint map_string (f : ascii -> ascii) (s : string) : string :=
  match s with
  | EmptyString => EmptyString
  | String c r => String (f c) (map_string f r)
  end.

(** [str.capitalize]. *)
Definition capitalize (s : string) : string :=
  match s with
  | EmptyString => EmptyString
  | String c r => String (upper c) (map_string lower r)
  end.

(** [round(q)] with one argument: the nearest integer, ties to the even one. *)
Definition py_round (q : Q) : Z :=
  let f := Qfloor q in
  match Qcompare (q - inject_Z f) (1 # 2) with
  | Lt => f
  | Gt => f + 1
  | Eq => if Z.even f then f else f + 1
  end.

(** Dictionary lookup by string key. *)
Fixpoint dict_get {V : Type} (d : list (string * V)) (k : string) : option V :=
  match d with
  | [] => None
  | (k', v) :: rest => if String.eqb k k' then Some v else dict_get rest k
  end.

(** ** Vectors, colours, block types *)

Record Vec3 : Type := vec3 { vx : Z; vy : Z; vz : Z }.

Definition Vec3_add (a b : Vec3) : Vec3 :=
  vec3 (vx a + vx b) (vy a + vy b) (vz a + vz b).

Definition Vec3_eqb (a b : Vec3) : bool :=
  (vx a =? vx b) && (vy a =? vy b) && (vz a =? vz b).

Definition Color : Type := (Z * Z * Z)%type.

Module color.
Definition rgb (r g b : Z) : Color := (r, g, b).
Definition black : Color := rgb 0 0 0.
End color.

Definition BLOCK_TYPES : list (string * Color) :=
  [ ("grass"%string,   color.rgb 34 177 76);
    ("dirt"%string,    color.rgb 139 69 19);
    ("stone"%string,   color.rgb 128 128 128);
    ("bedrock"%string, color.black);
    ("wood"%string,    color.rgb 160 82 45) ].

(** ** Voxels and the scene *)

Record Voxel : Type := mkVoxel {
  block_type : string;
  position : Vec3;
  voxel_color : Color
}.

Definition Scene : Type := list Voxel.

(** [Voxel.__init__]: rejects an unknown type, otherwise the new entity
    joins the scene ([parent=scene]) after the existing ones. *)
Definition Voxel_init (bt : string) (pos : Vec3) (sc : Scene) : Result Scene :=
  match dict_get BLOCK_TYPES bt with
  | None => Raise (ValueError ("Unknown block type: " ++ bt))
  | Some c => Ok (sc ++ [mkVoxel bt pos c])
  end.

(** [destroy(entity)]: the entity at place [i] leaves the scene. *)
Fixpoint remove_nth {A : Type} (i : nat) (l : list A) : list A :=
  match l, i with
  | [], _ => []
  | _ :: r, O => r
  | a :: r, S j => a :: remove_nth j r
  end.

(** ** World generation (the module-level loop) *)

Definition freq : Q := 3 # 100.

Section Generation.
Variable noise : Q -> Q -> Q.
Variables world_size world_height : Z.

(** [y = floor(noise([x * 0.03, z * 0.03]) * world_height)] *)
Definition column_height (x z : Z) : Z :=
  Qfloor (noise (inject_Z x * freq) (inject_Z z * freq) * inject_Z world_height).

(** The body of the inner loop. *)
Definition generate_column (z x : Z) (sc : Scene) : Result Scene :=
  let y := column_height x z in
  sc <- Voxel_init "grass" (vec3 x y z) sc ;;
  sc <- Voxel_init "dirt" (vec3 x (y - 1) z) sc ;;
  sc <- Voxel_init "dirt" (vec3 x (y - 2) z) sc ;;
  sc <- for_each (py_range_down (y - 3) (-1))
         (fun depth => Voxel_init "stone" (vec3 x depth z)) sc ;;
  Voxel_init "bedrock" (vec3 x (-1) z) sc.

Definition generate (sc : Scene) : Result Scene :=
  for_each (py_range 0 world_size)
    (fun z => for_each (py_range 0 world_size) (fun x => generate_column z x))
    sc.
End Generation.

Definition world_size : Z := 24.
Definition world_height : Z := 8.

(** ** Session state after start-up *)

Record Player : Type := mkPlayer { player_x : Q; player_y : Q; player_z : Q }.

Record State : Type := mkState {
  scene : Scene;
  current_block_type : string;
  current_block_text : string;
  player : Player
}.

(** [(world_size / 2, world_height + 5, world_size / 2)] *)
Definition spawn_position : Player :=
  mkPlayer (inject_Z world_size / 2) (inject_Z (world_height + 5))
           (inject_Z world_size / 2).

Definition selected_text (bt : string) : string :=
  ("Selected: " ++ capitalize bt)%string.

(** The state the script reaches before [app.run()], for a generated scene. *)
Definition initial_state (sc : Scene) : State :=
  mkState sc "grass" (selected_text "grass") spawn_position.

Definition set_scene (sc : Scene) (st : State) : State :=
  mkState sc (current_block_type st) (current_block_text st) (player st).

(** ** [Voxel.input]

    [self] is the place of the receiving voxel in the scene; [hovered] and
    [mouse_normal] are what the engine reports for it ([self.hovered],
    [mouse.normal]).  An index that names no live entity receives no event. *)
Definition Voxel_input (self : nat) (hovered : bool) (mouse_normal : Vec3)
  (key : string) (st : State) : Result State :=
  match nth_error (scene st) self with
  | None => Ok st
  | Some v =>
    if hovered then
      st <- (if String.eqb key "right mouse down" then
               let new_position := Vec3_add (position v) mouse_normal in
               if negb ((vx new_position =? py_round (player_x (player st)))
                        && (vy new_position =? py_round (player_y (player st)))
                        && (vz new_position =? py_round (player_z (player st))))
               then sc <- Voxel_init (current_block_type st) new_position (scene st) ;;
                    Ok (set_scene sc st)
               else Ok st
             else Ok st) ;;
      if String.eqb key "left mouse down" then
        if negb (String.eqb (block_type v) "bedrock")
        then Ok (set_scene (remove_nth self (scene st)) st)
        else Ok st
      else Ok st
    else Ok st
  end.

(** ** The module-level [input] *)

Definition block_map : list (string * string) :=
  [ ("1", "grass"); ("2", "dirt"); ("3", "stone"); ("4", "wood") ]%string.

Definition fall_reset (st : State) : State :=
  match Qcompare (player_y (player st)) (inject_Z (-10)) with
  | Lt => mkState (scene st) (current_block_type st) (current_block_text st)
                  spawn_position
  | _ => st
  end.

(** [key.isdigit() and int(key) in range(1, 5)]: [int] is reached only for
    a key that passed [isdigit], and may raise. *)
Definition selects (U : PyText) (key : string) : Result bool :=
  if isdigit U key then
    v <- py_int U key ;; Ok (existsb (Z.eqb v) (py_range 1 5))
  else Ok false.

Definition input (U : PyText) (key : string) (st : State) : Result State :=
  sel <- selects U key ;;
  st <- (if sel then
           match dict_get block_map key with
           | None => Raise (KeyError key)
           | Some bt => Ok (mkState (scene st) bt (selected_text bt) (player st))
           end
         else Ok st) ;;
  Ok (fall_reset st).

(** ** Callbacks the script hands to the engine's main loop

    [app.run()] calls a module-level [update] once per frame and a
    module-level [input] once per key event, when the script defines them.
    program.py defines [input] only, so a frame tick runs none of its code. *)
Inductive Callback : Type :=
| FrameTick
| KeyEvent (key : string).

Definition script_callback (U : PyText) (c : Callback) (st : State)
  : Result State :=
  match c with
  | FrameTick => Ok st
  | KeyEvent key => input U key st
  end.

(** ** Observations on the scene *)

(** The block types present at a coordinate, oldest first. *)
Definition blocks_at (c : Vec3) (sc : Scene) : list string :=
  map block_type (filter (fun v => Vec3_eqb (position v) c) sc).

(** No two live voxels share a coordinate. *)
Definition unique_occupancy (sc : Scene) : Prop :=
  NoDup (map position sc).

(** The cell the player occupies for the placement guard. *)
Definition actor_cell (p : Player) : Vec3 :=
  vec3 (py_round (player_x p)) (py_round (player_y p)) (py_round (player_z p)).

(** A unit vector along one axis: the normal of a face of the block model. *)
Definition is_face_normal (n : Vec3) : Prop :=
  Z.abs (vx n) + Z.abs (vy n) + Z.abs (vz n) = 1.

(** ** The layering recipe, as a list

    Written after the description of the generator: for a column whose
    surface is at [h], grass at [h], dirt at [h-1] and [h-2], stone from
    [h-3] down to [0], bedrock at [-1].  It is compared with
    [generate_column] below. *)
Definition catalog_color (bt : string) : Color :=
  match dict_get BLOCK_TYPES bt with
  | Some c => c
  | None => color.black
  end.

Definition block (bt : string) (x y z : Z) : Voxel :=
  mkVoxel bt (vec3 x y z) (catalog_color bt).

Definition layering_recipe (x h z : Z) : list Voxel :=
  [block "grass" x h z; block "dirt" x (h - 1) z; block "dirt" x (h - 2) z]
  ++ map (fun d => block "stone" x d z) (py_range_down (h - 3) (-1))
  ++ [block "bedrock" x (-1) z].

(** The recipes of all columns, in the order the two loops visit them
    ([z] outside, [x] inside). *)
Definition generated_scene (noise : Q -> Q -> Q) (ws wh : Z) : Scene :=
  flat_map (fun z =>
    flat_map (fun x => layering_recipe x (column_height noise wh x z) z)
             (py_range 0 ws))
    (py_range 0 ws).

(** ** States used in the examples *)

(** Start-up with a single column and a noise that returns 1/8 everywhere. *)
Definition low_column_scene : Scene :=
  generated_scene (fun _ _ => 1 # 8) 1 8.

(** Wood is selected; a grass block with a stone block beside it. *)
Definition crowded_state : State :=
  mkState [block "grass" 0 0 0; block "stone" 1 0 0]
          "wood" (selected_text "wood") spawn_position.

(** The player has fallen below the reset level. *)
Definition fallen_state : State :=
  mkState [block "bedrock" 0 (-1) 0] "grass" (selected_text "grass")
          (mkPlayer 0 (-11) 0).

Definition is_bedrock (v : Voxel) : bool :=
  String.eqb (block_type v) "bedrock".

(** Start-up with the single column of a noise that is 0 everywhere: grass,
    dirt, dirt, bedrock, the upper dirt and the bedrock both at [(0,-1,0)]. *)
Definition flat_state : State :=
  initial_state (generated_scene (fun _ _ => 0%Q) 1 8).

(** Dirt is selected and the player stands in the cell above the one block. *)
Definition standing_state : State :=
  mkState [block "grass" 0 0 0] "dirt" (selected_text "dirt")
          (mkPlayer (1 # 3) (3 # 4) (- (1 # 3))).

(** A text parameter for the examples: they use ASCII keys only, for which
    neither field is consulted. *)
Definition ascii_text : PyText :=
  mkPyText (fun _ => false) (fun s => Raise (ValueError s)).

(** ** Further observations on the scene *)

Definition has_type (bt : string) (v : Voxel) : bool :=
  String.eqb (block_type v) bt.

(** How many live voxels have a given type. *)
Definition count_type (bt : string) (sc : Scene) : nat :=
  List.length (filter (has_type bt) sc).

Definition in_column (x z : Z) (v : Voxel) : bool :=
  (vx (position v) =? x) && (vz (position v) =? z).

(** The voxels standing in column [(x, z)], oldest first. *)
Definition column_of (x z : Z) (sc : Scene) : Scene :=
  filter (in_column x z) sc.

(** The voxel's tint is the one the catalogue gives for its type. *)
Definition catalog_ok (v : Voxel) : Prop :=
  dict_get BLOCK_TYPES (block_type v) = Some (voxel_color v).

(** The types the number keys can select. *)
Definition selectable : list string := map snd block_map.

(** ** Runs

    After start-up the engine calls the two handlers, in some order and with
    some arguments, and its first-person controller moves the player in
    between.  A run is any finite sequence of such steps; it stops at the
    first exception. *)
Inductive Call : Type :=
| VoxelInputCall (self : nat) (hovered : bool) (mouse_normal : Vec3) (key : string)
| InputCall (key : string)
| PlayerMoves (p : Player).

Definition set_player (p : Player) (st : State) : State :=
  mkState (scene st) (current_block_type st) (current_block_text st) p.

Definition call (U : PyText) (c : Call) (st : State) : Result State :=
  match c with
  | VoxelInputCall self hovered mouse_normal key =>
      Voxel_input self hovered mouse_normal key st
  | InputCall key => input U key st
  | PlayerMoves p => Ok (set_player p st)
  end.

Definition run (U : PyText) (calls : list Call) (st : State) : Result State :=
  for_each calls (call U) st.

(** What holds of the session between handler calls: the selection is one
    the number keys offer, the label shows it, and every voxel carries the
    catalogue colour of its type. *)
Definition session_ok (st : State) : Prop :=
  In (current_block_type st) selectable
  /\ current_block_text st = selected_text (current_block_type st)
  /\ Forall catalog_ok (scene st).

(** The state with another selection and its label. *)
Definition with_selection (bt : string) (st : State) : State :=
  mkState (scene st) bt (selected_text bt) (player st).

(** * Basic facts *)

Lemma in_py_range (a b k : Z) : In k (py_range a b) <-> a <= k < b.
Proof.
  unfold py_range. rewrite in_map_iff. split.
  - intros (n & <- & Hn). apply in_seq in Hn. lia.
  - intros H. exists (Z.to_nat (k - a)). split; [lia|].
    apply in_seq. lia.
Qed.

Lemma in_py_range_down (a b k : Z) : In k (py_range_down a b) <-> b < k <= a.
Proof.
  unfold py_range_down. rewrite in_map_iff. split.
  - intros (n & <- & Hn). apply in_seq in Hn. lia.
  - intros H. exists (Z.to_nat (a - k)). split; [lia|].
    apply in_seq. lia.
Qed.

Lemma NoDup_map_inj {A B : Type} (f : A -> B) (l : list A) :
  (forall a b, In a l -> In b l -> f a = f b -> a = b) ->
  NoDup l -> NoDup (map f l).
Proof.
  intros Hinj Hnd. induction Hnd as [|a l Hnotin Hnd IH]; simpl.
  - constructor.
  - constructor.
    + rewrite in_map_iff. intros (b & Hfb & Hb).
      apply Hnotin. rewrite (Hinj a b); auto; [left; reflexivity | right; exact Hb].
    + apply IH. intros; apply Hinj; simpl; auto.
Qed.

Lemma NoDup_py_range (a b : Z) : NoDup (py_range a b).
Proof.
  unfold py_range. apply NoDup_map_inj; [intros; lia | apply seq_NoDup].
Qed.

Lemma NoDup_py_range_down (a b : Z) : NoDup (py_range_down a b).
Proof.
  unfold py_range_down. apply NoDup_map_inj; [intros; lia | apply seq_NoDup].
Qed.

Lemma NoDup_flat_map_disjoint {A B : Type} (f : A -> list B) (l : list A) :
  NoDup l ->
  (forall a, In a l -> NoDup (f a)) ->
  (forall a b y, In a l -> In b l -> In y (f a) -> In y (f b) -> a = b) ->
  NoDup (flat_map f l).
Proof.
  intros Hnd. induction Hnd as [|a l Hnotin Hnd IH]; intros Hf Hdisj; simpl.
  - constructor.
  - apply NoDup_app.
    + apply Hf. left. reflexivity.
    + apply IH.
      * intros b Hb. apply Hf. right. exact Hb.
      * intros b c y Hb Hc. apply Hdisj; right; assumption.
    + intros y Hya Hyl. apply in_flat_map in Hyl as (b & Hb & Hyb).
      apply Hnotin. rewrite (Hdisj a b y); auto; [left; reflexivity | right; exact Hb].
Qed.

Lemma for_each_appends {A E : Type} (f : A -> list E)
  (body : A -> list E -> Result (list E)) (xs : list A) :
  (forall a s, In a xs -> body a s = Ok (s ++ f a)) ->
  forall s, for_each xs body s = Ok (s ++ flat_map f xs).
Proof.
  induction xs as [|a xs IH]; intros Hbody s; simpl.
  - now rewrite app_nil_r.
  - rewrite Hbody by (left; reflexivity). simpl.
    rewrite IH by (intros; apply Hbody; right; assumption).
    now rewrite app_assoc.
Qed.

Lemma Vec3_eqb_eq (a b : Vec3) : Vec3_eqb a b = true <-> a = b.
Proof.
  destruct a as [ax ay az], b as [bx by_ bz]. unfold Vec3_eqb; simpl.
  rewrite !andb_true_iff, !Z.eqb_eq. split.
  - intros [[-> ->] ->]. reflexivity.
  - intros H. injection H as -> -> ->. auto.
Qed.

Lemma Vec3_eqb_neq (a b : Vec3) : Vec3_eqb a b = false <-> a <> b.
Proof.
  rewrite <- Vec3_eqb_eq. destruct (Vec3_eqb a b); split; congruence.
Qed.

(** ** Generation is the concatenation of the columns' recipes *)

Section GenerationFacts.
Variable noise : Q -> Q -> Q.
Variables ws wh : Z.

Lemma generate_column_recipe (z x : Z) (sc : Scene) :
  generate_column noise wh z x sc
  = Ok (sc ++ layering_recipe x (column_height noise wh x z) z).
Proof.
  unfold generate_column, layering_recipe.
  set (h := column_height noise wh x z).
  unfold Voxel_init at 1; simpl dict_get; simpl bind.
  unfold Voxel_init at 1; simpl dict_get; simpl bind.
  unfold Voxel_init at 1; simpl dict_get; simpl bind.
  rewrite (for_each_appends (fun d => [block "stone" x d z]))
    by (intros; reflexivity).
  simpl bind. unfold Voxel_init; simpl dict_get.
  f_equal. rewrite flat_map_concat_map, <- !app_assoc. simpl.
  repeat f_equal.
  induction (py_range_down (h - 3) (-1)) as [|d l IH]; simpl; [reflexivity|].
  rewrite <- IH. reflexivity.
Qed.

Lemma generate_recipe (sc : Scene) :
  generate noise ws wh sc = Ok (sc ++ generated_scene noise ws wh).
Proof.
  unfold generate, generated_scene.
  apply for_each_appends. intros z s _.
  apply for_each_appends. intros x s' _.
  apply generate_column_recipe.
Qed.

Lemma in_layering_recipe (v : Voxel) (x h z : Z) :
  In v (layering_recipe x h z) <->
  exists bt y, v = block bt x y z /\
    ((bt = "grass"%string /\ y = h)
     \/ (bt = "dirt"%string /\ (y = h - 1 \/ y = h - 2))
     \/ (bt = "stone"%string /\ 0 <= y <= h - 3)
     \/ (bt = "bedrock"%string /\ y = -1)).
Proof.
  unfold layering_recipe. simpl. rewrite in_app_iff, in_map_iff. simpl. split.
  - intros [<-|[<-|[<-|[(d & <- & Hd)|[<-|[]]]]]].
    + exists "grass"%string, h. auto.
    + exists "dirt"%string, (h - 1). auto 6.
    + exists "dirt"%string, (h - 2). auto 6.
    + apply in_py_range_down in Hd. exists "stone"%string, d.
      split; [reflexivity|]. right; right; left. split; [reflexivity | lia].
    + exists "bedrock"%string, (-1). auto 6.
  - intros (bt & y & -> & [[-> ->]|[[-> [->| ->]]|[[-> Hy]|[-> ->]]]]); auto.
    + do 3 right. left. exists y. split; [reflexivity|].
      apply in_py_range_down. lia.
    + do 4 right. left. reflexivity.
Qed.

Lemma in_generated_scene (v : Voxel) :
  In v (generated_scene noise ws wh) <->
  exists x z, 0 <= x < ws /\ 0 <= z < ws /\
    In v (layering_recipe x (column_height noise wh x z) z).
Proof.
  unfold generated_scene. rewrite in_flat_map. split.
  - intros (z & Hz & Hv). apply in_flat_map in Hv as (x & Hx & Hv).
    apply in_py_range in Hz, Hx. exists x, z. auto.
  - intros (x & z & Hx & Hz & Hv). exists z. split; [apply in_py_range; exact Hz|].
    apply in_flat_map. exists x. split; [apply in_py_range; exact Hx | exact Hv].
Qed.
End GenerationFacts.

(** * Terrain generation *)

(** C1. Generation never raises and yields, column after column, the layering
    recipe at the column's height [floor(noise(x*freq, z*freq) * world_height)].
    For every column [(x, z)] of the footprint the blocks of that column are
    exactly: grass at [y = height], dirt at [height-1] and [height-2], stone
    at every [y] with [0 <= y <= height-3] (none when [height-3 < 0]), and
    bedrock at [y = -1]. *)
Theorem generation_layers (noise : Q -> Q -> Q) (ws wh : Z) :
  generate noise ws wh [] = Ok (generated_scene noise ws wh) /\
  forall x z, 0 <= x < ws -> 0 <= z < ws ->
    let height := column_height noise wh x z in
    height = Qfloor (noise (inject_Z x * freq)%Q (inject_Z z * freq)%Q
                     * inject_Z wh)%Q /\
    forall bt y,
      (exists v, In v (generated_scene noise ws wh)
                 /\ block_type v = bt /\ position v = vec3 x y z)
      <->
      ((bt = "grass"%string /\ y = height)
       \/ (bt = "dirt"%string /\ (y = height - 1 \/ y = height - 2))
       \/ (bt = "stone"%string /\ 0 <= y <= height - 3)
       \/ (bt = "bedrock"%string /\ y = -1)).
Proof.
  split; [exact (generate_recipe noise ws wh []) |].
  intros x z Hx Hz height. split; [reflexivity|].
  intros bt y. split.
  - intros (v & Hv & Hbt & Hpos).
    apply in_generated_scene in Hv as (x' & z' & _ & _ & Hv).
    apply in_layering_recipe in Hv as (bt' & y' & -> & Hcases).
    simpl in Hbt, Hpos. subst bt'. injection Hpos as -> -> ->.
    exact Hcases.
  - intros Hcases. exists (block bt x y z). split; [|split; reflexivity].
    apply in_generated_scene. exists x, z. split; [exact Hx|]. split; [exact Hz|].
    apply in_layering_recipe. exists bt, y. split; [reflexivity | exact Hcases].
Qed.

Lemma generation_layers_witness :
  (exists v, In v (generated_scene (fun _ _ => 1 # 2) 2 8)
             /\ block_type v = "stone"%string /\ position v = vec3 1 0 1).
Proof.
  apply (proj2 (proj2 (generation_layers (fun _ _ => 1 # 2) 2 8) 1 1
                  ltac:(lia) ltac:(lia))).
  right; right; left. split; [reflexivity | vm_compute; split; discriminate].
Defined.

(** * The click handler, case by case *)

Lemma Voxel_input_not_hovered (self : nat) (n : Vec3) (key : string) (st : State) :
  Voxel_input self false n key st = Ok st.
Proof.
  unfold Voxel_input. destruct (nth_error (scene st) self); reflexivity.
Qed.

Lemma Voxel_input_right (self : nat) (hovered : bool) (n : Vec3) (st : State) :
  Voxel_input self hovered n "right mouse down" st =
  match nth_error (scene st) self with
  | Some v =>
      if hovered && negb (Vec3_eqb (Vec3_add (position v) n) (actor_cell (player st)))
      then sc <- Voxel_init (current_block_type st) (Vec3_add (position v) n) (scene st) ;;
           Ok (set_scene sc st)
      else Ok st
  | None => Ok st
  end.
Proof.
  unfold Voxel_input. destruct (nth_error (scene st) self) as [v|]; [|reflexivity].
  destruct hovered; [|reflexivity].
  change (String.eqb "right mouse down" "right mouse down") with true.
  change (String.eqb "right mouse down" "left mouse down") with false.
  cbv iota. unfold Vec3_eqb, actor_cell. simpl.
  destruct (negb _); [|reflexivity].
  destruct (Voxel_init _ _ _); reflexivity.
Qed.

Lemma Voxel_input_left (self : nat) (hovered : bool) (n : Vec3) (st : State) :
  Voxel_input self hovered n "left mouse down" st =
  match nth_error (scene st) self with
  | Some v =>
      if hovered && negb (String.eqb (block_type v) "bedrock")
      then Ok (set_scene (remove_nth self (scene st)) st)
      else Ok st
  | None => Ok st
  end.
Proof.
  unfold Voxel_input. destruct (nth_error (scene st) self) as [v|]; [|reflexivity].
  destruct hovered; [|reflexivity].
  change (String.eqb "left mouse down" "right mouse down") with false.
  change (String.eqb "left mouse down" "left mouse down") with true.
  reflexivity.
Qed.

(** A placement that passes the guard, for a registered selection. *)
Lemma Voxel_input_place (self : nat) (n : Vec3) (st : State) (v : Voxel) (col : Color) :
  nth_error (scene st) self = Some v ->
  dict_get BLOCK_TYPES (current_block_type st) = Some col ->
  Vec3_add (position v) n <> actor_cell (player st) ->
  Voxel_input self true n "right mouse down" st =
  Ok (set_scene
        (scene st ++ [mkVoxel (current_block_type st) (Vec3_add (position v) n) col])
        st).
Proof.
  intros Hv Hcol Hne. rewrite Voxel_input_right, Hv.
  apply Vec3_eqb_neq in Hne. rewrite Hne. simpl.
  unfold Voxel_init. rewrite Hcol. reflexivity.
Qed.

Lemma Voxel_input_place_rejected (self : nat) (n : Vec3) (st : State) (v : Voxel) :
  nth_error (scene st) self = Some v ->
  Vec3_add (position v) n = actor_cell (player st) ->
  Voxel_input self true n "right mouse down" st = Ok st.
Proof.
  intros Hv Heq. rewrite Voxel_input_right, Hv.
  apply Vec3_eqb_eq in Heq. rewrite Heq. reflexivity.
Qed.

(** ** Scene observations under append and removal *)

Lemma blocks_at_app (c : Vec3) (a b : Scene) :
  blocks_at c (a ++ b) = blocks_at c a ++ blocks_at c b.
Proof.
  unfold blocks_at. now rewrite filter_app, map_app.
Qed.

Lemma blocks_at_single (c : Vec3) (v : Voxel) :
  blocks_at c [v] = if Vec3_eqb (position v) c then [block_type v] else [].
Proof.
  unfold blocks_at. simpl. destruct (Vec3_eqb (position v) c); reflexivity.
Qed.

Lemma blocks_at_empty (c : Vec3) (sc : Scene) :
  blocks_at c sc = [] <-> ~ In c (map position sc).
Proof.
  unfold blocks_at. induction sc as [|v sc IH]; simpl.
  - tauto.
  - destruct (Vec3_eqb (position v) c) eqn:E; simpl.
    + apply Vec3_eqb_eq in E. split; [discriminate | intros H; exfalso; auto].
    + apply Vec3_eqb_neq in E. rewrite IH. tauto.
Qed.

Lemma blocks_at_remove_nth_other (c : Vec3) (sc : Scene) (i : nat) (v : Voxel) :
  nth_error sc i = Some v -> position v <> c ->
  blocks_at c (remove_nth i sc) = blocks_at c sc.
Proof.
  revert i. induction sc as [|w sc IH]; intros [|i] Hv Hne; simpl in *;
    try discriminate.
  - injection Hv as ->. unfold blocks_at. simpl.
    apply Vec3_eqb_neq in Hne. now rewrite Hne.
  - unfold blocks_at in *. simpl.
    destruct (Vec3_eqb (position w) c); simpl; [f_equal|]; eauto.
Qed.

Lemma blocks_at_remove_nth_same (sc : Scene) (i : nat) (v : Voxel) :
  nth_error sc i = Some v ->
  List.length (blocks_at (position v) sc)
  = S (List.length (blocks_at (position v) (remove_nth i sc))).
Proof.
  revert i. induction sc as [|w sc IH]; intros [|i] Hv; simpl in *;
    try discriminate.
  - injection Hv as ->. unfold blocks_at. simpl.
    now rewrite (proj2 (Vec3_eqb_eq (position v) (position v)) eq_refl).
  - unfold blocks_at in *. simpl.
    destruct (Vec3_eqb (position w) (position v)); simpl; rewrite (IH i Hv);
      reflexivity.
Qed.

Lemma length_remove_nth {A : Type} (l : list A) (i : nat) (a : A) :
  nth_error l i = Some a -> List.length l = S (List.length (remove_nth i l)).
Proof.
  revert i. induction l as [|b l IH]; intros [|i] H; simpl in *;
    try discriminate; [reflexivity|].
  f_equal. eauto.
Qed.

Lemma in_remove_nth {A : Type} (l : list A) (i : nat) (a : A) :
  In a (remove_nth i l) -> In a l.
Proof.
  revert i. induction l as [|b l IH]; intros [|i]; simpl; auto.
  intros [H|H]; eauto.
Qed.

Lemma NoDup_remove_nth {A : Type} (l : list A) (i : nat) :
  NoDup l -> NoDup (remove_nth i l).
Proof.
  intros H. revert i. induction H as [|a l Hnotin Hnd IH]; intros [|i]; simpl;
    try constructor; auto.
  intros Hin. apply Hnotin. eapply in_remove_nth; eauto.
Qed.

Lemma map_remove_nth {A B : Type} (f : A -> B) (l : list A) (i : nat) :
  map f (remove_nth i l) = remove_nth i (map f l).
Proof.
  revert i. induction l as [|a l IH]; intros [|i]; simpl; auto.
  now rewrite IH.
Qed.

Lemma filter_remove_nth_false {A : Type} (p : A -> bool) (l : list A) (i : nat) (a : A) :
  nth_error l i = Some a -> p a = false ->
  filter p (remove_nth i l) = filter p l.
Proof.
  revert i. induction l as [|b l IH]; intros [|i] H Hp; simpl in *;
    try discriminate.
  - injection H as ->. now rewrite Hp.
  - rewrite (IH i H Hp). reflexivity.
Qed.

Lemma map_flat_map_comm {A B C : Type} (g : B -> C) (f : A -> list B) (l : list A) :
  map g (flat_map f l) = flat_map (fun a => map g (f a)) l.
Proof.
  induction l as [|a l IH]; simpl; [reflexivity|].
  now rewrite map_app, IH.
Qed.

(** ** Occupancy of a generated world *)

Lemma recipe_positions (x h z : Z) :
  map position (layering_recipe x h z) =
  map (fun y => vec3 x y z)
      ([h; h - 1; h - 2] ++ py_range_down (h - 3) (-1) ++ [-1]).
Proof.
  unfold layering_recipe. rewrite !map_app, !map_map. reflexivity.
Qed.

Lemma NoDup_recipe_positions (x h z : Z) :
  2 <= h \/ h <= -2 -> NoDup (map position (layering_recipe x h z)).
Proof.
  intros Hh. rewrite recipe_positions.
  apply NoDup_map_inj; [intros a b _ _ H; now injection H|].
  simpl. repeat constructor; simpl;
    rewrite ?in_app_iff, ?in_py_range_down; simpl; try lia.
  apply NoDup_app.
  - apply NoDup_py_range_down.
  - repeat constructor. simpl. tauto.
  - intros a Ha [<-|[]]. apply in_py_range_down in Ha. lia.
Qed.

Lemma in_recipe_positions (p : Vec3) (x h z : Z) :
  In p (map position (layering_recipe x h z)) -> vx p = x /\ vz p = z.
Proof.
  rewrite recipe_positions, in_map_iff. intros (y & <- & _). auto.
Qed.

Lemma generated_unique (noise : Q -> Q -> Q) (ws wh : Z) :
  (forall x z, 0 <= x < ws -> 0 <= z < ws ->
     2 <= column_height noise wh x z \/ column_height noise wh x z <= -2) ->
  unique_occupancy (generated_scene noise ws wh).
Proof.
  intros Hh. unfold unique_occupancy, generated_scene.
  rewrite map_flat_map_comm.
  apply NoDup_flat_map_disjoint.
  - apply NoDup_py_range.
  - intros z Hz. apply in_py_range in Hz. rewrite map_flat_map_comm.
    apply NoDup_flat_map_disjoint.
    + apply NoDup_py_range.
    + intros x Hx. apply in_py_range in Hx.
      apply NoDup_recipe_positions. apply Hh; lia.
    + intros a b p _ _ Ha Hb.
      apply in_recipe_positions in Ha, Hb. destruct Ha, Hb. congruence.
  - intros a b p _ _ Ha Hb.
    rewrite map_flat_map_comm in Ha, Hb.
    apply in_flat_map in Ha as (xa & _ & Ha), Hb as (xb & _ & Hb).
    apply in_recipe_positions in Ha, Hb. destruct Ha, Hb. congruence.
Qed.

(** ** The key handler, branch by branch *)

Lemma in_range_1_5 (k : Z) :
  existsb (Z.eqb k) (py_range 1 5) = true <-> 1 <= k < 5.
Proof.
  rewrite existsb_exists. split.
  - intros (y & Hy & E). apply in_py_range in Hy. apply Z.eqb_eq in E. lia.
  - intros H. exists k. split; [apply in_py_range; lia | apply Z.eqb_refl].
Qed.

Lemma dict_get_Some_In {V : Type} (d : list (string * V)) (k : string) (v : V) :
  dict_get d k = Some v -> In (k, v) d.
Proof.
  induction d as [|[k' v'] d IH]; simpl; [discriminate|].
  destruct (String.eqb_spec k k') as [->|Hne].
  - intros H. injection H as ->. left. reflexivity.
  - intros H. right. auto.
Qed.

Lemma input_cases (U : PyText) (key : string) (st : State) :
  (exists bt, In (key, bt) block_map
     /\ input U key st = Ok (fall_reset (with_selection bt st)))
  \/ (exists e, isdigit U key = true /\ py_int U key = Raise e
        /\ input U key st = Raise e)
  \/ (exists v, isdigit U key = true /\ py_int U key = Ok v
        /\ 1 <= v < 5 /\ dict_get block_map key = None
        /\ input U key st = Raise (KeyError key))
  \/ ((isdigit U key = false
       \/ exists v, py_int U key = Ok v /\ ~ 1 <= v < 5)
      /\ input U key st = Ok (fall_reset st)).
Proof.
  unfold input, selects.
  destruct (isdigit U key) eqn:Hd; cbn [bind].
  - destruct (py_int U key) as [v|e] eqn:Hi; cbn [bind].
    + destruct (existsb (Z.eqb v) (py_range 1 5)) eqn:Hr; cbn [bind].
      * apply in_range_1_5 in Hr.
        destruct (dict_get block_map key) as [bt|] eqn:Hm; cbn [bind].
        -- left. exists bt.
           split; [exact (dict_get_Some_In block_map key bt Hm) | reflexivity].
        -- right; right; left. exists v. auto 6.
      * right; right; right. split; [|reflexivity]. right. exists v.
        split; [reflexivity|]. intros H. apply in_range_1_5 in H. congruence.
    + right; left. exists e. auto.
  - right; right; right. auto.
Qed.

Lemma input_scene (U : PyText) (key : string) (st st' : State) :
  input U key st = Ok st' -> scene st' = scene st.
Proof.
  intros H.
  assert (Hfr : forall s, scene (fall_reset s) = scene s).
  { intros s. unfold fall_reset. destruct (Qcompare _ _); reflexivity. }
  destruct (input_cases U key st)
    as [(bt & _ & E)|[(e & _ & _ & E)|[(v & _ & _ & _ & _ & E)|(_ & E)]]];
    rewrite E in H; try discriminate; injection H as <-; rewrite Hfr;
    reflexivity.
Qed.

(** * Occupancy *)

(** C2, as stated, fails: with one column of height 1 the generator leaves a
    dirt block and the bedrock block both at [(0, -1, 0)]. *)
Lemma occupancy_generation_counterexample :
  generate (fun _ _ => 1 # 8) 1 8 [] = Ok low_column_scene /\
  blocks_at (vec3 0 (-1) 0) low_column_scene = ["dirt"; "bedrock"]%string /\
  ~ unique_occupancy low_column_scene.
Proof.
  split; [reflexivity|]. split; [reflexivity|].
  unfold unique_occupancy. vm_compute.
  intros H. inversion H as [|? ? _ H1]; subst.
  inversion H1 as [|? ? _ H2]; subst.
  inversion H2 as [|? ? Hn _]; subst.
  apply Hn. left. reflexivity.
Qed.

(** C2, amended.  Generation leaves pairwise distinct coordinates when no
    column height lies in [-1 .. 1]; a left click never adds a voxel, so it
    keeps coordinates distinct; a right click adds one voxel and keeps them
    distinct when no voxel is at the target; the key handler does not touch
    the scene. *)
Theorem occupancy_preserved :
  (forall noise ws wh,
     (forall x z, 0 <= x < ws -> 0 <= z < ws ->
        2 <= column_height noise wh x z \/ column_height noise wh x z <= -2) ->
     exists sc, generate noise ws wh [] = Ok sc /\ unique_occupancy sc)
  /\ (forall self hovered n st st',
        unique_occupancy (scene st) ->
        Voxel_input self hovered n "left mouse down" st = Ok st' ->
        unique_occupancy (scene st'))
  /\ (forall self hovered n st st' v,
        unique_occupancy (scene st) ->
        nth_error (scene st) self = Some v ->
        blocks_at (Vec3_add (position v) n) (scene st) = [] ->
        Voxel_input self hovered n "right mouse down" st = Ok st' ->
        unique_occupancy (scene st'))
  /\ (forall U key st st',
        unique_occupancy (scene st) ->
        input U key st = Ok st' ->
        unique_occupancy (scene st')).
Proof.
  repeat split.
  - intros noise ws wh Hh. exists (generated_scene noise ws wh).
    split; [apply generate_recipe | apply generated_unique; exact Hh].
  - intros self hovered n st st' Hu H. rewrite Voxel_input_left in H.
    destruct (nth_error (scene st) self) as [v|]; [|injection H as <-; exact Hu].
    destruct (hovered && _); injection H as <-; [|exact Hu].
    unfold unique_occupancy in *. simpl. rewrite map_remove_nth.
    apply NoDup_remove_nth. exact Hu.
  - intros self hovered n st st' v Hu Hv Hfree H.
    rewrite Voxel_input_right, Hv in H.
    destruct (hovered && _); [|injection H as <-; exact Hu].
    unfold Voxel_init in H.
    destruct (dict_get BLOCK_TYPES (current_block_type st)) as [col|];
      simpl in H; [|discriminate].
    injection H as <-. unfold unique_occupancy in *. simpl.
    rewrite map_app. simpl. apply NoDup_app.
    + exact Hu.
    + repeat constructor. simpl. tauto.
    + intros p Hp [<-|[]]. apply blocks_at_empty in Hfree. exact (Hfree Hp).
  - intros U key st st' Hu H. rewrite (input_scene _ _ _ _ H). exact Hu.
Qed.

Lemma occupancy_preserved_witness :
  (exists sc, generate (fun _ _ => 1 # 2) 2 8 [] = Ok sc /\ unique_occupancy sc)
  /\ unique_occupancy
       (scene (set_scene [block "dirt" 0 0 0; block "stone" 0 1 0]
                         (initial_state []))).
Proof.
  split.
  { apply (proj1 occupancy_preserved (fun _ _ => 1 # 2) 2 8).
    intros x z _ _. left. vm_compute. discriminate. }
  apply (proj1 (proj2 occupancy_preserved) 2%nat true (vec3 0 1 0)
           (initial_state [block "dirt" 0 0 0; block "stone" 0 1 0;
                           block "grass" 0 2 0])).
  - unfold unique_occupancy. simpl.
    repeat constructor; simpl; intuition discriminate.
  - reflexivity.
Defined.

(** * The flat-noise scenario *)

(** C3, as stated, fails: the bedrock written last at [y = -1] does not
    replace the dirt written there before; the cell does not end up holding
    bedrock alone. *)
Lemma flat_noise_counterexample :
  ~ (exists sc, generate (fun _ _ => 0%Q) 1 8 [] = Ok sc
                /\ blocks_at (vec3 0 (-1) 0) sc = ["bedrock"%string]).
Proof.
  intros (sc & Hgen & Hcell). vm_compute in Hgen. injection Hgen as <-.
  vm_compute in Hcell. discriminate.
Qed.

(** C3, amended.  With [world_size = 1], [world_height = 8] and a noise that
    is 0 everywhere, the column height is 0, the stone range is empty, and
    generation creates four voxels in this order: grass at [y = 0], dirt at
    [y = -1], dirt at [y = -2], bedrock at [y = -1].  The bedrock is created
    last and joins the dirt at [y = -1]: that cell holds both. *)
Theorem flat_noise_scenario :
  column_height (fun _ _ => 0%Q) 8 0 0 = 0
  /\ py_range_down (0 - 3) (-1) = []
  /\ generate (fun _ _ => 0%Q) 1 8 []
     = Ok [block "grass" 0 0 0; block "dirt" 0 (-1) 0; block "dirt" 0 (-2) 0;
           block "bedrock" 0 (-1) 0]
  /\ blocks_at (vec3 0 0 0) (generated_scene (fun _ _ => 0%Q) 1 8)
     = ["grass"%string]
  /\ blocks_at (vec3 0 (-2) 0) (generated_scene (fun _ _ => 0%Q) 1 8)
     = ["dirt"%string]
  /\ blocks_at (vec3 0 (-1) 0) (generated_scene (fun _ _ => 0%Q) 1 8)
     = ["dirt"; "bedrock"]%string.
Proof.
  repeat split; reflexivity.
Qed.

(** * Placing *)

(** C4, as stated, fails: placing wood on a cell that already holds stone
    leaves the stone there, so the cell reads stone and wood, not wood. *)
Lemma place_replace_counterexample :
  Voxel_input 0 true (vec3 1 0 0) "right mouse down" crowded_state
  = Ok (set_scene [block "grass" 0 0 0; block "stone" 1 0 0; block "wood" 1 0 0]
                  crowded_state)
  /\ blocks_at (vec3 1 0 0)
       [block "grass" 0 0 0; block "stone" 1 0 0; block "wood" 1 0 0]
     = ["stone"; "wood"]%string
  /\ blocks_at (vec3 1 0 0)
       [block "grass" 0 0 0; block "stone" 1 0 0; block "wood" 1 0 0]
     <> ["wood"%string]
  /\ vec3 1 0 0 <> actor_cell (player crowded_state).
Proof.
  split; [reflexivity|]. split; [reflexivity|].
  split; vm_compute; discriminate.
Qed.

(** C4, amended.  For a registered selected type [T] and a target [c] other
    than the actor's cell, a place always goes through and adds a voxel of
    type [T] at [c] after the voxels already there: [T] is the newest block
    at [c]; [c] reads exactly [T] when it was empty before, and keeps its
    earlier blocks as well when it was occupied. *)
Theorem place_then_get (self : nat) (n : Vec3) (st : State) (v : Voxel) (col : Color) :
  nth_error (scene st) self = Some v ->
  dict_get BLOCK_TYPES (current_block_type st) = Some col ->
  Vec3_add (position v) n <> actor_cell (player st) ->
  let c := Vec3_add (position v) n in
  let T := current_block_type st in
  exists st',
    Voxel_input self true n "right mouse down" st = Ok st'
    /\ blocks_at c (scene st') = blocks_at c (scene st) ++ [T]
    /\ last (blocks_at c (scene st')) EmptyString = T
    /\ (blocks_at c (scene st) = [] -> blocks_at c (scene st') = [T]).
Proof.
  intros Hv Hcol Hne c T. eexists. split; [apply Voxel_input_place; eassumption|].
  assert (E : blocks_at c (scene st ++ [mkVoxel T c col]) = blocks_at c (scene st) ++ [T]).
  { rewrite blocks_at_app, blocks_at_single. simpl.
    now rewrite (proj2 (Vec3_eqb_eq c c) eq_refl). }
  simpl. fold c T. rewrite E. split; [reflexivity|]. split.
  - apply last_last.
  - intros ->. reflexivity.
Qed.

Lemma place_then_get_witness :
  exists st',
    Voxel_input 0 true (vec3 0 1 0) "right mouse down" crowded_state = Ok st'
    /\ blocks_at (vec3 0 1 0) (scene st') = ["wood"%string].
Proof.
  destruct (place_then_get 0 (vec3 0 1 0) crowded_state (block "grass" 0 0 0)
              (color.rgb 160 82 45) eq_refl eq_refl)
    as (st' & Hrun & Hget & _).
  - vm_compute. discriminate.
  - exists st'. split; [exact Hrun | exact Hget].
Defined.

(** * Destroying *)

(** C5, as stated, fails.  In the world of a flat noise the coordinate
    [(0,-1,0)] holds a dirt and a bedrock voxel.  A left click on the dirt
    there goes through and changes that cell, although it holds bedrock;
    and a left click on the bedrock itself is an ordinary return of the
    handler, not a failure: nothing is raised or reported. *)
Lemma destroy_coordinate_counterexample :
  blocks_at (vec3 0 (-1) 0) (scene flat_state) = ["dirt"; "bedrock"]%string
  /\ (exists st',
        Voxel_input 1 true (vec3 0 1 0) "left mouse down" flat_state = Ok st'
        /\ blocks_at (vec3 0 (-1) 0) (scene st') = ["bedrock"%string]
        /\ scene st' <> scene flat_state)
  /\ Voxel_input 3 true (vec3 0 1 0) "left mouse down" flat_state
     = Ok flat_state.
Proof.
  split; [reflexivity|]. split; [|reflexivity].
  eexists. split; [reflexivity|]. split; [reflexivity|].
  vm_compute. discriminate.
Qed.

(** C5, amended.  Destroying is addressed to the hovered voxel, not to a
    coordinate.  A left click on a hovered bedrock voxel is refused
    silently: the handler returns normally and the scene is as it was,
    whatever the state.  A left click on a hovered voxel of any other type
    removes that voxel, and only it, from the scene: the scene is the old
    one without the entry at its place, and its coordinate has one block
    fewer (a bedrock voxel at the same coordinate stays).  No left click
    removes a bedrock voxel. *)
Theorem destroy_bedrock_guard (self : nat) (n : Vec3) (st : State) (v : Voxel) :
  nth_error (scene st) self = Some v ->
  exists st',
    Voxel_input self true n "left mouse down" st = Ok st'
    /\ current_block_type st' = current_block_type st
    /\ player st' = player st
    /\ (block_type v = "bedrock"%string ->
          scene st' = scene st /\ nth_error (scene st') self = Some v)
    /\ (block_type v <> "bedrock"%string ->
          scene st' = remove_nth self (scene st)
          /\ List.length (scene st) = S (List.length (scene st'))
          /\ List.length (blocks_at (position v) (scene st))
             = S (List.length (blocks_at (position v) (scene st'))))
    /\ filter is_bedrock (scene st') = filter is_bedrock (scene st).
Proof.
  intros Hv. rewrite Voxel_input_left, Hv. simpl.
  destruct (String.eqb_spec (block_type v) "bedrock") as [Hb|Hb]; simpl.
  - exists st. split; [reflexivity|]. split; [reflexivity|].
    split; [reflexivity|]. split; [auto|]. split; [|reflexivity].
    intros Hnb. contradiction.
  - eexists. split; [reflexivity|]. simpl.
    split; [reflexivity|]. split; [reflexivity|].
    split; [intros Hb'; contradiction|]. split.
    + intros _. split; [reflexivity|]. split.
      * eapply length_remove_nth. exact Hv.
      * apply blocks_at_remove_nth_same. exact Hv.
    + apply (filter_remove_nth_false is_bedrock _ _ v Hv).
      unfold is_bedrock. apply String.eqb_neq. exact Hb.
Qed.

Lemma destroy_bedrock_guard_witness :
  exists st',
    Voxel_input 1 true (vec3 0 1 0) "left mouse down" flat_state = Ok st'
    /\ scene st' = [block "grass" 0 0 0; block "dirt" 0 (-2) 0;
                    block "bedrock" 0 (-1) 0]
    /\ filter is_bedrock (scene st') = [block "bedrock" 0 (-1) 0].
Proof.
  destruct (destroy_bedrock_guard 1 (vec3 0 1 0) flat_state
              (block "dirt" 0 (-1) 0) eq_refl)
    as (st' & Hrun & _ & _ & _ & Hrem & Hbed).
  exists st'. split; [exact Hrun|]. split.
  - apply Hrem. discriminate.
  - exact Hbed.
Defined.

(** * The actor guard *)

Lemma py_round_nearest (q : Q) :
  (- (1 # 2) <= q - inject_Z (py_round q) <= 1 # 2)%Q.
Proof.
  unfold py_round.
  pose proof (Qfloor_le q) as Hlo. pose proof (Qlt_floor q) as Hhi.
  rewrite inject_Z_plus in Hhi. change (inject_Z 1) with 1%Q in Hhi.
  destruct (Qcompare_spec (q - inject_Z (Qfloor q)) (1 # 2)) as [E|E|E].
  - destruct (Z.even (Qfloor q));
      [|rewrite inject_Z_plus; change (inject_Z 1) with 1%Q]; lra.
  - lra.
  - rewrite inject_Z_plus. change (inject_Z 1) with 1%Q. lra.
Qed.

Lemma set_scene_grows (sc : Scene) (w : Voxel) (st : State) :
  sc = scene st -> set_scene (sc ++ [w]) st <> st.
Proof.
  intros -> H. apply (f_equal scene) in H. simpl in H.
  apply (f_equal (@List.length Voxel)) in H. rewrite length_app in H.
  simpl in H. lia.
Qed.

(** C6, as stated, fails: when the target is the player's cell the place
    does not fail.  The handler returns normally with the state as it was;
    no exception is raised and nothing is reported to the caller. *)
Lemma place_refusal_counterexample :
  Vec3_add (position (block "grass" 0 0 0)) (vec3 0 1 0)
  = actor_cell (player standing_state)
  /\ Voxel_input 0 true (vec3 0 1 0) "right mouse down" standing_state
     = Ok standing_state
  /\ ~ (exists e, Voxel_input 0 true (vec3 0 1 0) "right mouse down"
                   standing_state = Raise e).
Proof.
  split; [reflexivity|]. split; [reflexivity|].
  intros (e & H). discriminate H.
Qed.

(** C6, amended.  A place on target [c] is refused silently, by an ordinary
    return that leaves the state as it was, exactly when [c] is the
    player's position rounded to the nearest integer on all three axes;
    otherwise it goes through and adds the voxel.  One differing axis is
    enough for it to go through. *)
Theorem place_actor_guard (self : nat) (n : Vec3) (st : State) (v : Voxel) (col : Color) :
  nth_error (scene st) self = Some v ->
  dict_get BLOCK_TYPES (current_block_type st) = Some col ->
  let c := Vec3_add (position v) n in
  let p := player st in
  (Voxel_input self true n "right mouse down" st = Ok st
     <-> (vx c = py_round (player_x p) /\ vy c = py_round (player_y p)
          /\ vz c = py_round (player_z p)))
  /\ ((vx c <> py_round (player_x p) \/ vy c <> py_round (player_y p)
       \/ vz c <> py_round (player_z p)) ->
        Voxel_input self true n "right mouse down" st
        = Ok (set_scene (scene st ++ [mkVoxel (current_block_type st) c col]) st))
  /\ (- (1 # 2) <= player_x p - inject_Z (py_round (player_x p)) <= 1 # 2)%Q
  /\ (- (1 # 2) <= player_y p - inject_Z (py_round (player_y p)) <= 1 # 2)%Q
  /\ (- (1 # 2) <= player_z p - inject_Z (py_round (player_z p)) <= 1 # 2)%Q.
Proof.
  intros Hv Hcol c p.
  assert (Hcell : c = actor_cell p <->
                  (vx c = py_round (player_x p) /\ vy c = py_round (player_y p)
                   /\ vz c = py_round (player_z p))).
  { unfold actor_cell. destruct c as [cx cy cz]. simpl. split.
    - intros H. injection H as -> -> ->. auto.
    - intros (-> & -> & ->). reflexivity. }
  split; [|split].
  - rewrite <- Hcell. split.
    + intros H. destruct (Vec3_eqb c (actor_cell p)) eqn:E;
        [apply Vec3_eqb_eq; exact E|].
      apply Vec3_eqb_neq in E.
      rewrite (Voxel_input_place self n st v col Hv Hcol E) in H.
      injection H as H. exfalso. revert H. apply set_scene_grows. reflexivity.
    + intros H. apply (Voxel_input_place_rejected self n st v Hv H).
  - intros Hdiff. apply (Voxel_input_place self n st v col Hv Hcol).
    fold c p. rewrite Hcell. lia.
  - repeat split; apply py_round_nearest.
Qed.

Lemma place_actor_guard_witness :
  Voxel_input 0 true (vec3 0 1 0) "right mouse down"
    (mkState [block "grass" 0 0 0] "dirt" (selected_text "dirt")
             (mkPlayer (1 # 3) (3 # 2) (- (1 # 2))))
  = Ok (set_scene [block "grass" 0 0 0; block "dirt" 0 1 0]
          (mkState [block "grass" 0 0 0] "dirt" (selected_text "dirt")
                   (mkPlayer (1 # 3) (3 # 2) (- (1 # 2))))).
Proof.
  apply (proj1 (proj2 (place_actor_guard 0 (vec3 0 1 0)
           (mkState [block "grass" 0 0 0] "dirt" (selected_text "dirt")
                    (mkPlayer (1 # 3) (3 # 2) (- (1 # 2))))
           (block "grass" 0 0 0) (color.rgb 139 69 19) eq_refl eq_refl))).
  right. left. vm_compute. discriminate.
Defined.

(** * Picks *)

(** C7. On a hit (the voxel is hovered) a right click targets the cell
    [hit position + face normal], which is adjacent to the hit cell and never
    the hit cell itself: the scene gains one voxel of the currently selected
    type at that cell, and the hit cell keeps its blocks (unless the target
    is the actor's cell, where the click is refused and the scene stays as
    it was).  Without a hit, neither click changes anything. *)
Theorem pick_place_target (self : nat) (n : Vec3) (st : State) (v : Voxel) (col : Color) :
  nth_error (scene st) self = Some v ->
  dict_get BLOCK_TYPES (current_block_type st) = Some col ->
  is_face_normal n ->
  let target := Vec3_add (position v) n in
  target <> position v
  /\ Z.abs (vx target - vx (position v)) + Z.abs (vy target - vy (position v))
     + Z.abs (vz target - vz (position v)) = 1
  /\ (exists st',
        Voxel_input self true n "right mouse down" st = Ok st'
        /\ (target <> actor_cell (player st) ->
              scene st'
              = scene st ++ [mkVoxel (current_block_type st) target col]
              /\ blocks_at target (scene st')
                 = blocks_at target (scene st) ++ [current_block_type st]
              /\ blocks_at (position v) (scene st')
                 = blocks_at (position v) (scene st))
        /\ (target = actor_cell (player st) -> scene st' = scene st))
  /\ (forall key, Voxel_input self false n key st = Ok st).
Proof.
  intros Hv Hcol Hn target. unfold is_face_normal in Hn.
  assert (Hadj : target <> position v).
  { unfold target, Vec3_add. destruct (position v) as [px py pz]. simpl.
    intros H. injection H as Hx Hy Hz. lia. }
  split; [exact Hadj|]. split; [|split].
  - unfold target, Vec3_add. simpl. lia.
  - destruct (Vec3_eqb target (actor_cell (player st))) eqn:E.
    + apply Vec3_eqb_eq in E. exists st.
      split; [eapply Voxel_input_place_rejected; eassumption|].
      split; [intros Hne; contradiction | reflexivity].
    + apply Vec3_eqb_neq in E. eexists.
      split; [apply Voxel_input_place; eassumption|].
      split; [|intros Heq; contradiction].
      intros _. simpl. fold target. split; [reflexivity|].
      rewrite !blocks_at_app, !blocks_at_single. simpl.
      rewrite (proj2 (Vec3_eqb_eq target target) eq_refl).
      apply Vec3_eqb_neq in Hadj. rewrite Hadj, app_nil_r. auto.
  - intros key. apply Voxel_input_not_hovered.
Qed.

Lemma pick_place_target_witness :
  exists st',
    Voxel_input 1 true (vec3 0 0 (-1)) "right mouse down" crowded_state = Ok st'
    /\ scene st' = [block "grass" 0 0 0; block "stone" 1 0 0;
                    block "wood" 1 0 (-1)].
Proof.
  destruct (proj1 (proj2 (proj2
    (pick_place_target 1 (vec3 0 0 (-1)) crowded_state (block "stone" 1 0 0)
       (color.rgb 160 82 45) eq_refl eq_refl eq_refl))))
    as (st' & Hrun & Hplace & _).
  exists st'. split; [exact Hrun|].
  apply Hplace. vm_compute. discriminate.
Defined.

(** * Selection and fall recovery *)

Lemma input_selects (U : PyText) (key bt : string) (st : State) :
  In (key, bt) block_map ->
  input U key st
  = Ok (fall_reset (mkState (scene st) bt (selected_text bt) (player st)))
  /\ dict_get BLOCK_TYPES bt <> None.
Proof.
  unfold block_map. simpl.
  intros [H|[H|[H|[H|[]]]]]; injection H as <- <-; split;
    (reflexivity || discriminate).
Qed.

Lemma input_ignores (U : PyText) (key : string) (st : State) :
  isdigit U key = false -> input U key st = Ok (fall_reset st).
Proof.
  intros H. unfold input, selects. rewrite H. reflexivity.
Qed.

Lemma fall_reset_spec (st : State) :
  scene (fall_reset st) = scene st
  /\ current_block_type (fall_reset st) = current_block_type st
  /\ current_block_text (fall_reset st) = current_block_text st
  /\ ((player_y (player st) < inject_Z (-10))%Q ->
        player (fall_reset st) = spawn_position)
  /\ (~ (player_y (player st) < inject_Z (-10))%Q ->
        player (fall_reset st) = player st).
Proof.
  unfold fall_reset.
  destruct (Qcompare_spec (player_y (player st)) (inject_Z (-10))) as [E|E|E];
    simpl; repeat split; auto; intros H; try reflexivity.
  - rewrite E in H. exfalso. revert H. apply Qlt_irrefl.
  - contradiction.
  - exfalso. apply (Qlt_irrefl (inject_Z (-10))).
    eapply Qlt_trans; eassumption.
Qed.

(** C8, as stated, fails: the handler takes a key, not a block name.  The
    unregistered name "lava" raises nothing, and the registered name "wood"
    does not become the selection: on every interpreter both calls return
    normally with grass still selected. *)
Lemma select_by_name_counterexample :
  dict_get BLOCK_TYPES "lava" = None
  /\ (forall U, input U "lava" (initial_state []) = Ok (initial_state []))
  /\ dict_get BLOCK_TYPES "wood" = Some (color.rgb 160 82 45)
  /\ (forall U, input U "wood" (initial_state []) = Ok (initial_state []))
  /\ current_block_type (initial_state []) <> "wood"%string.
Proof.
  repeat split; try reflexivity. discriminate.
Qed.

(** C8, amended.  The selection starts as grass.  The keys "1", "2", "3", "4"
    select grass, dirt, stone, wood (all registered): the call returns
    normally, sets the selection and its label, and leaves the scene alone.
    Any key for which [key.isdigit()] is false returns normally without
    raising, and the selection, its label and the scene stay as they were;
    for a key of ASCII characters that is the case unless the key is a
    non-empty string of the digits 0 to 9, so it covers "lava". *)
Theorem select_by_key (U : PyText) (key : string) (st : State) :
  (forall sc, current_block_type (initial_state sc) = "grass"%string)
  /\ (forall bt, In (key, bt) block_map ->
        dict_get BLOCK_TYPES bt <> None
        /\ exists st', input U key st = Ok st'
             /\ current_block_type st' = bt
             /\ current_block_text st' = selected_text bt
             /\ scene st' = scene st)
  /\ (isdigit U key = false ->
        exists st', input U key st = Ok st'
          /\ current_block_type st' = current_block_type st
          /\ current_block_text st' = current_block_text st
          /\ scene st' = scene st)
  /\ (is_ascii key = true -> isdigit U key = ascii_isdigit key)
  /\ isdigit U "lava" = false.
Proof.
  split; [reflexivity|]. split; [|split; [|split]].
  - intros bt Hin. destruct (input_selects U key bt st Hin) as [Hrun Hreg].
    split; [exact Hreg|]. eexists. split; [exact Hrun|].
    destruct (fall_reset_spec (mkState (scene st) bt (selected_text bt) (player st)))
      as (Hs & Hc & Ht & _).
    auto.
  - intros Hnd. eexists. split; [apply input_ignores; exact Hnd|].
    destruct (fall_reset_spec st) as (Hs & Hc & Ht & _). auto.
  - intros Ha. unfold isdigit. rewrite Ha. reflexivity.
  - reflexivity.
Qed.

Lemma select_by_key_witness :
  (exists st', input ascii_text "3" (initial_state []) = Ok st'
     /\ current_block_type st' = "stone"%string
     /\ current_block_text st' = "Selected: Stone"%string
     /\ scene st' = [])
  /\ (exists st', input ascii_text "lava" crowded_state = Ok st'
        /\ current_block_type st' = "wood"%string
        /\ current_block_text st' = "Selected: Wood"%string
        /\ scene st' = scene crowded_state).
Proof.
  split.
  - apply (proj1 (proj2 (select_by_key ascii_text "3" (initial_state [])))
             "stone"%string).
    right. right. left. reflexivity.
  - apply (proj1 (proj2 (proj2 (select_by_key ascii_text "lava" crowded_state)))).
    reflexivity.
Defined.

(** C9, as stated, fails: the script has no per-frame hook, so a frame tick
    does not reset a player who is below the threshold. *)
Lemma fall_check_counterexample :
  (player_y (player fallen_state) < inject_Z (-10))%Q
  /\ (forall U, script_callback U FrameTick fallen_state = Ok fallen_state)
  /\ player fallen_state <> spawn_position.
Proof.
  split; [reflexivity|]. split; [reflexivity|]. discriminate.
Qed.

(** C9, amended.  The fall check runs once per key event, at the end of the
    key handler.  When the handler returns, the player is at the spawn
    position if [player.y < -10] held, and where it was otherwise; the scene
    is untouched either way.  The handler returns, and so reaches the check,
    for every key for which [key.isdigit()] is false and for "1" to "4";
    when it raises instead (only possible for a key that passes
    [isdigit]), the check is not reached and nothing is reset.  A frame
    tick runs no code of the script. *)
Theorem fall_check_on_key (U : PyText) (key : string) (st : State) :
  (forall st', script_callback U (KeyEvent key) st = Ok st' ->
     scene st' = scene st
     /\ ((player_y (player st) < inject_Z (-10))%Q -> player st' = spawn_position)
     /\ (~ (player_y (player st) < inject_Z (-10))%Q -> player st' = player st))
  /\ (isdigit U key = false \/ (exists bt, In (key, bt) block_map) ->
        exists st', script_callback U (KeyEvent key) st = Ok st')
  /\ (forall e, script_callback U (KeyEvent key) st = Raise e ->
        isdigit U key = true)
  /\ script_callback U FrameTick st = Ok st.
Proof.
  split; [|split; [|split; [|reflexivity]]].
  - simpl. intros st' H.
    destruct (input_cases U key st)
      as [(bt & _ & E)|[(e & _ & _ & E)|[(v & _ & _ & _ & _ & E)|(_ & E)]]];
      rewrite E in H; try discriminate; injection H as <-.
    + destruct (fall_reset_spec (with_selection bt st))
        as (Hs & _ & _ & Hlt & Hge).
      auto.
    + destruct (fall_reset_spec st) as (Hs & _ & _ & Hlt & Hge). auto.
  - simpl. intros [Hnd|(bt & Hin)].
    + eexists. apply input_ignores. exact Hnd.
    + eexists. apply (input_selects U key bt st Hin).
  - simpl. intros e H.
    destruct (isdigit U key) eqn:Hd; [reflexivity|].
    rewrite (input_ignores U key st Hd) in H. discriminate.
Qed.

Lemma fall_check_on_key_witness :
  player (fall_reset fallen_state) = spawn_position.
Proof.
  apply (proj1 (proj2 (proj1 (fall_check_on_key ascii_text "w" fallen_state)
                         (fall_reset fallen_state) eq_refl))).
  reflexivity.
Defined.

(** * Frame properties of the two clicks *)



(** * Further properties of the script *)

(** ** The voxel constructor *)

Lemma dict_get_None {V : Type} (d : list (string * V)) (k : string) :
  dict_get d k = None <-> ~ In k (map fst d).
Proof.
  induction d as [|[k' v] d IH]; simpl.
  - tauto.
  - destruct (String.eqb_spec k k') as [->|Hne].
    + split; [discriminate | intros H; exfalso; auto].
    + rewrite IH. split; [intros H [E|E]; congruence || auto | tauto].
Qed.

(** X1. [Voxel.__init__] accepts exactly the five catalogued names.  For one
    of them it adds a single voxel, after the existing ones, carrying that
    type, the given position and the catalogue's colour for the type.  For
    any other name it raises [ValueError] with the message
    "Unknown block type: <name>" and no voxel is created. *)
Theorem Voxel_init_catalog (bt : string) (pos : Vec3) (sc : Scene) :
  (In bt ["grass"; "dirt"; "stone"; "bedrock"; "wood"]%string ->
     exists col, dict_get BLOCK_TYPES bt = Some col
       /\ Voxel_init bt pos sc = Ok (sc ++ [mkVoxel bt pos col]))
  /\ (~ In bt ["grass"; "dirt"; "stone"; "bedrock"; "wood"]%string ->
        Voxel_init bt pos sc = Raise (ValueError ("Unknown block type: " ++ bt))).
Proof.
  change ["grass"; "dirt"; "stone"; "bedrock"; "wood"]%string
    with (map fst BLOCK_TYPES).
  unfold Voxel_init. split; intros H.
  - destruct (dict_get BLOCK_TYPES bt) as [col|] eqn:E.
    + exists col. auto.
    + apply dict_get_None in E. contradiction.
  - apply dict_get_None in H. rewrite H. reflexivity.
Qed.

Lemma Voxel_init_catalog_witness :
  Voxel_init "lava" (vec3 0 0 0) [block "grass" 0 0 0]
  = Raise (ValueError "Unknown block type: lava").
Proof.
  apply (proj2 (Voxel_init_catalog "lava" (vec3 0 0 0) [block "grass" 0 0 0])).
  simpl. intuition discriminate.
Defined.

(** ** Clicks *)

(** Keys other than the two mouse keys fall through both tests. *)
Lemma Voxel_input_other_key (self : nat) (hovered : bool) (n : Vec3)
  (key : string) (st : State) :
  key <> "right mouse down"%string ->
  key <> "left mouse down"%string ->
  Voxel_input self hovered n key st = Ok st.
Proof.
  intros Hr Hl. unfold Voxel_input.
  apply String.eqb_neq in Hr, Hl. rewrite Hr, Hl.
  destruct (nth_error (scene st) self); [|reflexivity].
  destruct hovered; reflexivity.
Qed.

Lemma Voxel_input_cases (self : nat) (hovered : bool) (n : Vec3)
  (key : string) (st : State) :
  (key = "right mouse down"%string
   /\ Voxel_input self hovered n key st
      = Voxel_input self hovered n "right mouse down" st)
  \/ (key = "left mouse down"%string
      /\ Voxel_input self hovered n key st
         = Voxel_input self hovered n "left mouse down" st)
  \/ Voxel_input self hovered n key st = Ok st.
Proof.
  destruct (String.eqb_spec key "right mouse down") as [->|Hr]; [left; auto|].
  destruct (String.eqb_spec key "left mouse down") as [->|Hl]; [right; left; auto|].
  right; right. apply Voxel_input_other_key; assumption.
Qed.

(** X2. The voxel handler acts only for a mouse key on a hovered live
    voxel.  For any other key, for a voxel that is not hovered, and for an
    index that names no live voxel, it returns with the state as it was. *)
Theorem Voxel_input_noop (self : nat) (hovered : bool) (n : Vec3)
  (key : string) (st : State) :
  (key <> "right mouse down"%string /\ key <> "left mouse down"%string)
  \/ hovered = false
  \/ nth_error (scene st) self = None ->
  Voxel_input self hovered n key st = Ok st.
Proof.
  intros [[Hr Hl]|[->|Hnone]].
  - apply Voxel_input_other_key; assumption.
  - apply Voxel_input_not_hovered.
  - unfold Voxel_input. rewrite Hnone. reflexivity.
Qed.

Lemma Voxel_input_noop_witness :
  Voxel_input 0 true (vec3 0 1 0) "space" crowded_state = Ok crowded_state
  /\ Voxel_input 7 true (vec3 0 1 0) "left mouse down" crowded_state
     = Ok crowded_state.
Proof.
  split.
  - apply Voxel_input_noop. left. split; discriminate.
  - apply Voxel_input_noop. right. right. reflexivity.
Defined.

(** X3. The only way a click raises: a hovered live voxel receives a right
    click whose target is not the player's cell while the selected type is
    not in the catalogue; the exception is the constructor's [ValueError].
    In every other situation the handler returns. *)
Theorem Voxel_input_raises (self : nat) (hovered : bool) (n : Vec3)
  (key : string) (st : State) (e : exn) :
  Voxel_input self hovered n key st = Raise e <->
  (exists v, nth_error (scene st) self = Some v
     /\ hovered = true
     /\ key = "right mouse down"%string
     /\ Vec3_add (position v) n <> actor_cell (player st)
     /\ dict_get BLOCK_TYPES (current_block_type st) = None
     /\ e = ValueError ("Unknown block type: " ++ current_block_type st)).
Proof.
  split.
  - intros H.
    destruct (Voxel_input_cases self hovered n key st) as [[-> _]|[[-> _]|E]].
    + rewrite Voxel_input_right in H.
      destruct (nth_error (scene st) self) as [v|]; [|discriminate].
      exists v. split; [reflexivity|].
      destruct hovered; [|discriminate]. simpl in H.
      destruct (Vec3_eqb _ _) eqn:E; [discriminate|]. simpl in H.
      apply Vec3_eqb_neq in E. unfold Voxel_init in H.
      destruct (dict_get BLOCK_TYPES (current_block_type st)); simpl in H;
        [discriminate|].
      injection H as <-. auto 6.
    + rewrite Voxel_input_left in H.
      destruct (nth_error (scene st) self); [|discriminate].
      destruct (hovered && _); discriminate.
    + rewrite E in H. discriminate.
  - intros (v & Hv & -> & -> & Hne & Hnone & ->).
    rewrite Voxel_input_right, Hv. apply Vec3_eqb_neq in Hne. rewrite Hne.
    simpl. unfold Voxel_init. rewrite Hnone. reflexivity.
Qed.

(** X4. A click that returns never touches the selection, its label or the
    player, and changes the scene by at most one voxel: nothing, or one
    voxel of the selected type appended (right click), or the receiving
    voxel removed (left click). *)
Theorem click_effect (self : nat) (hovered : bool) (n : Vec3)
  (key : string) (st st' : State) :
  Voxel_input self hovered n key st = Ok st' ->
  current_block_type st' = current_block_type st
  /\ current_block_text st' = current_block_text st
  /\ player st' = player st
  /\ (scene st' = scene st
      \/ (key = "right mouse down"%string
          /\ exists v col,
               nth_error (scene st) self = Some v
               /\ dict_get BLOCK_TYPES (current_block_type st) = Some col
               /\ scene st' = scene st
                    ++ [mkVoxel (current_block_type st)
                                (Vec3_add (position v) n) col])
      \/ (key = "left mouse down"%string
          /\ exists v, nth_error (scene st) self = Some v
               /\ block_type v <> "bedrock"%string
               /\ scene st' = remove_nth self (scene st)
               /\ List.length (scene st) = S (List.length (scene st')))).
Proof.
  intros H.
  destruct (Voxel_input_cases self hovered n key st) as [[-> _]|[[-> _]|E]].
  - rewrite Voxel_input_right in H.
    destruct (nth_error (scene st) self) as [v|] eqn:Hv;
      [|injection H as <-; auto 6].
    destruct (hovered && _); [|injection H as <-; auto 6].
    unfold Voxel_init in H.
    destruct (dict_get BLOCK_TYPES (current_block_type st)) as [col|] eqn:Hc;
      simpl in H; [|discriminate].
    injection H as <-. simpl. repeat split; auto.
    right; left. split; [reflexivity|]. exists v, col. auto.
  - rewrite Voxel_input_left in H.
    destruct (nth_error (scene st) self) as [v|] eqn:Hv;
      [|injection H as <-; auto 6].
    destruct hovered; [|injection H as <-; auto 6]. simpl in H.
    destruct (String.eqb_spec (block_type v) "bedrock") as [Hb|Hb];
      simpl in H; injection H as <-; [auto 6|].
    simpl. repeat split; auto.
    right; right. split; [reflexivity|]. exists v.
    repeat split; auto. eapply length_remove_nth. exact Hv.
  - rewrite E in H. injection H as <-. auto 6.
Qed.

Lemma click_effect_witness :
  current_block_type (set_scene [block "grass" 0 0 0] crowded_state)
  = "wood"%string.
Proof.
  apply (proj1 (click_effect 1 true (vec3 0 1 0) "left mouse down"
                  crowded_state (set_scene [block "grass" 0 0 0] crowded_state)
                  eq_refl)).
Defined.

Lemma remove_nth_last {A : Type} (l : list A) (a : A) :
  remove_nth (List.length l) (l ++ [a]) = l.
Proof.
  induction l as [|b l IH]; simpl; [reflexivity | now rewrite IH].
Qed.

Lemma nth_error_last {A : Type} (l : list A) (a : A) :
  nth_error (l ++ [a]) (List.length l) = Some a.
Proof.
  induction l as [|b l IH]; simpl; [reflexivity | exact IH].
Qed.

(** X5. Placing and then destroying the new block is a round trip: after a
    right click that goes through with a selection other than bedrock, a
    left click on the voxel just created (the last entity of the scene)
    gives back exactly the state before the placement. *)
Theorem place_destroy_roundtrip (self : nat) (n n' : Vec3) (st : State)
  (v : Voxel) (col : Color) :
  nth_error (scene st) self = Some v ->
  dict_get BLOCK_TYPES (current_block_type st) = Some col ->
  current_block_type st <> "bedrock"%string ->
  Vec3_add (position v) n <> actor_cell (player st) ->
  exists st1,
    Voxel_input self true n "right mouse down" st = Ok st1
    /\ List.length (scene st1) = S (List.length (scene st))
    /\ Voxel_input (List.length (scene st)) true n' "left mouse down" st1 = Ok st.
Proof.
  intros Hv Hcol Hnb Hne. eexists. split; [apply Voxel_input_place; eassumption|].
  split; [simpl; rewrite length_app; simpl; lia|].
  rewrite Voxel_input_left. simpl. rewrite nth_error_last. simpl.
  apply String.eqb_neq in Hnb. rewrite Hnb. simpl.
  rewrite remove_nth_last. destruct st; reflexivity.
Qed.

Lemma place_destroy_roundtrip_witness :
  exists st1,
    Voxel_input 0 true (vec3 0 1 0) "right mouse down" crowded_state = Ok st1
    /\ List.length (scene st1) = 3%nat
    /\ Voxel_input 2 true (vec3 1 0 0) "left mouse down" st1 = Ok crowded_state.
Proof.
  apply (place_destroy_roundtrip 0 (vec3 0 1 0) (vec3 1 0 0) crowded_state
           (block "grass" 0 0 0) (color.rgb 160 82 45) eq_refl eq_refl).
  - discriminate.
  - vm_compute. discriminate.
Defined.

(** ** The key handler *)

(** X6. The key handler raises in two situations only, both for a key that
    passes [key.isdigit()].  Either [int(key)] raises (as it does for a
    digit that is not a decimal one), and that exception escapes; or
    [int(key)] gives a value in 1..4 while the key is not one of the four
    keys of the table (such as "01"), and the dictionary lookup raises
    [KeyError] with that key.  In every other case the handler returns. *)
Theorem input_raises (U : PyText) (key : string) (st : State) (e : exn) :
  (input U key st = Raise e <->
   isdigit U key = true
   /\ (py_int U key = Raise e
       \/ exists v, py_int U key = Ok v /\ 1 <= v < 5
            /\ ~ In key ["1"; "2"; "3"; "4"]%string
            /\ e = KeyError key))
  /\ input U "01" st = Raise (KeyError "01").
Proof.
  split; [|reflexivity].
  change ["1"; "2"; "3"; "4"]%string with (map fst block_map).
  destruct (input_cases U key st)
    as [(bt & Hin & E)|[(e' & Hd & Hi & E)|[(v & Hd & Hi & Hr & Hm & E)
                                           |([Hd|(v & Hi & Hr)] & E)]]];
    rewrite E.
  - split; [discriminate|].
    assert (Hk : isdigit U key = true /\ exists v, py_int U key = Ok v).
    { clear - Hin. unfold block_map in Hin. simpl in Hin.
      destruct Hin as [H|[H|[H|[H|[]]]]]; injection H as <- <-;
        (split; [reflexivity | eexists; reflexivity]). }
    destruct Hk as [_ (v & Hv)].
    intros (_ & [Hi|(v' & _ & _ & Hm & _)]); [congruence|].
    exfalso. apply Hm. exact (in_map fst _ _ Hin).
  - split.
    + intros H. injection H as <-. auto.
    + intros (_ & [Hi'|(v & Hi' & _)]); congruence.
  - apply dict_get_None in Hm. split.
    + intros H. injection H as <-. split; [exact Hd|]. right. exists v. auto.
    + intros (_ & [Hi'|(v' & _ & _ & _ & ->)]); [congruence | reflexivity].
  - split; [discriminate | intros (H & _); congruence].
  - split; [discriminate|].
    intros (_ & [Hi'|(v' & Hi' & Hr' & _)]); [congruence|].
    rewrite Hi in Hi'. injection Hi' as <-. contradiction.
Qed.

Lemma fall_reset_above (st : State) :
  ~ (player_y (player (fall_reset st)) < inject_Z (-10))%Q.
Proof.
  unfold fall_reset.
  destruct (Qcompare_spec (player_y (player st)) (inject_Z (-10))) as [E|E|E];
    simpl.
  - rewrite E. apply Qlt_irrefl.
  - discriminate.
  - intros H. apply (Qlt_irrefl (inject_Z (-10))). eapply Qlt_trans; eassumption.
Qed.

Lemma fall_reset_fixed (st : State) :
  ~ (player_y (player st) < inject_Z (-10))%Q -> fall_reset st = st.
Proof.
  unfold fall_reset. intros H.
  destruct (Qcompare_spec (player_y (player st)) (inject_Z (-10))) as [E|E|E];
    [reflexivity | contradiction | reflexivity].
Qed.

Lemma fall_reset_idem (st : State) : fall_reset (fall_reset st) = fall_reset st.
Proof.
  apply fall_reset_fixed, fall_reset_above.
Qed.

Lemma fall_reset_with_selection (bt : string) (st : State) :
  with_selection bt (fall_reset st) = fall_reset (with_selection bt st).
Proof.
  unfold fall_reset, with_selection. simpl.
  destruct (Qcompare _ _); reflexivity.
Qed.

(** X7. When the key handler returns, the player is never below the reset
    level: the position is either the one before the call or the spawn
    position, and its height is not under -10. *)
Theorem input_player_above (U : PyText) (key : string) (st st' : State) :
  input U key st = Ok st' ->
  ~ (player_y (player st') < inject_Z (-10))%Q
  /\ (player st' = player st \/ player st' = spawn_position).
Proof.
  intros H.
  assert (Hfr : forall s, player (fall_reset s) = player s
                          \/ player (fall_reset s) = spawn_position).
  { intros s. unfold fall_reset. destruct (Qcompare _ _); simpl; auto. }
  destruct (input_cases U key st)
    as [(bt & _ & E)|[(e & _ & _ & E)|[(v & _ & _ & _ & _ & E)|(_ & E)]]];
    rewrite E in H; try discriminate; injection H as <-.
  - split; [apply fall_reset_above | apply (Hfr (with_selection bt st))].
  - split; [apply fall_reset_above | apply Hfr].
Qed.

Lemma input_player_above_witness :
  ~ (player_y (player (fall_reset fallen_state)) < inject_Z (-10))%Q.
Proof.
  apply (proj1 (input_player_above ascii_text "a" fallen_state
                  (fall_reset fallen_state) eq_refl)).
Defined.

(** X8. Key events compose as follows.  Repeating a key event that returned
    changes nothing more.  A selection key overrides whatever key came just
    before it: pressing it after another key event gives the same state as
    pressing it alone. *)
Theorem input_compose (U : PyText) (key : string) (st st1 : State) :
  input U key st = Ok st1 ->
  input U key st1 = Ok st1
  /\ (forall key2 bt2, In (key2, bt2) block_map ->
        input U key2 st1 = input U key2 st).
Proof.
  intros H.
  assert (Hsel : forall bt2 s, with_selection bt2 (with_selection bt2 s)
                               = with_selection bt2 s) by reflexivity.
  destruct (input_cases U key st)
    as [(bt & Hin & E)|[(e & _ & _ & E)|[(v & _ & _ & _ & _ & E)|(Hno & E)]]];
    rewrite E in H; try discriminate; injection H as <-.
  - split.
    + destruct (input_selects U key bt (fall_reset (with_selection bt st)) Hin)
        as [-> _].
      fold (with_selection bt (fall_reset (with_selection bt st))).
      rewrite fall_reset_with_selection, Hsel, fall_reset_idem. reflexivity.
    + intros key2 bt2 Hin2.
      destruct (input_selects U key2 bt2 (fall_reset (with_selection bt st)) Hin2)
        as [-> _].
      destruct (input_selects U key2 bt2 st Hin2) as [-> _].
      fold (with_selection bt2 (fall_reset (with_selection bt st))).
      fold (with_selection bt2 st).
      rewrite fall_reset_with_selection, fall_reset_idem. reflexivity.
  - split.
    + destruct (input_cases U key (fall_reset st))
        as [(bt & Hin & E')|[(e & Hd & Hi & _)|[(v & Hd & Hi & Hr & _)|(_ & E')]]].
      * exfalso. destruct (input_selects U key bt st Hin) as [E2 _].
        rewrite E in E2. injection E2 as E2.
        apply (f_equal current_block_text) in E2.
        destruct (fall_reset_spec st) as (_ & Hc & Ht & _).
        destruct (fall_reset_spec
                    (mkState (scene st) bt (selected_text bt) (player st)))
          as (_ & Hc' & Ht' & _).
        destruct Hno as [Hd|(v & Hi & Hr)].
        -- clear - Hin Hd. unfold block_map in Hin. simpl in Hin.
           destruct Hin as [H|[H|[H|[H|[]]]]]; injection H as <- <-;
             discriminate.
        -- clear - Hin Hi Hr. unfold block_map in Hin. simpl in Hin.
           destruct Hin as [H|[H|[H|[H|[]]]]]; injection H as <- <-;
             injection Hi as <-; apply Hr; vm_compute;
             (split; [discriminate | reflexivity]).
      * exfalso. destruct Hno as [Hd'|(v & Hv & _)]; congruence.
      * exfalso. destruct Hno as [Hd'|(v' & Hv & Hr')]; [congruence|].
        rewrite Hi in Hv. injection Hv as <-. contradiction.
      * rewrite E', fall_reset_idem. reflexivity.
    + intros key2 bt2 Hin2.
      destruct (input_selects U key2 bt2 (fall_reset st) Hin2) as [-> _].
      destruct (input_selects U key2 bt2 st Hin2) as [-> _].
      fold (with_selection bt2 (fall_reset st)). fold (with_selection bt2 st).
      rewrite fall_reset_with_selection, fall_reset_idem. reflexivity.
Qed.

Lemma input_compose_witness :
  input ascii_text "2" (fall_reset (with_selection "wood" fallen_state))
  = input ascii_text "2" fallen_state.
Proof.
  apply (proj2 (input_compose ascii_text "4" fallen_state
                  (fall_reset (with_selection "wood" fallen_state)) eq_refl)
           "2"%string "dirt"%string).
  right. left. reflexivity.
Defined.

(** ** Rounding in the placement guard *)

Lemma Qfloor_unique (q : Q) (n : Z) :
  (inject_Z n <= q)%Q -> (q < inject_Z (n + 1))%Q -> Qfloor q = n.
Proof.
  intros Hlo Hhi.
  pose proof (Qfloor_le q) as Flo. pose proof (Qlt_floor q) as Fhi.
  assert (H1 : Qfloor q < n + 1).
  { rewrite Zlt_Qlt. eapply Qle_lt_trans; eassumption. }
  assert (H2 : n < Qfloor q + 1).
  { rewrite Zlt_Qlt. eapply Qle_lt_trans; eassumption. }
  lia.
Qed.

Lemma py_round_Z (n : Z) : py_round (inject_Z n) = n.
Proof.
  unfold py_round. rewrite Qfloor_Z.
  destruct (Qcompare_spec (inject_Z n - inject_Z n) (1 # 2)) as [E|E|E];
    [exfalso; lra | reflexivity | exfalso; lra].
Qed.

Lemma py_round_half (n : Z) :
  py_round (inject_Z n + (1 # 2)) = if Z.even n then n else n + 1.
Proof.
  unfold py_round.
  assert (F : Qfloor (inject_Z n + (1 # 2)) = n).
  { apply Qfloor_unique; [lra|].
    rewrite inject_Z_plus. change (inject_Z 1) with 1%Q. lra. }
  rewrite F.
  destruct (Qcompare_spec (inject_Z n + (1 # 2) - inject_Z n) (1 # 2))
    as [E|E|E]; [reflexivity | exfalso; lra | exfalso; lra].
Qed.

(** A right click leaves the state as it was exactly when its target is the
    player's cell. *)
Lemma place_refused_iff (self : nat) (n : Vec3) (st : State) (v : Voxel)
  (col : Color) :
  nth_error (scene st) self = Some v ->
  dict_get BLOCK_TYPES (current_block_type st) = Some col ->
  Voxel_input self true n "right mouse down" st = Ok st
  <-> Vec3_add (position v) n = actor_cell (player st).
Proof.
  intros Hv Hcol. split.
  - intros H.
    destruct (Vec3_eqb (Vec3_add (position v) n) (actor_cell (player st))) eqn:E;
      [apply Vec3_eqb_eq; exact E|].
    apply Vec3_eqb_neq in E.
    rewrite (Voxel_input_place self n st v col Hv Hcol E) in H.
    injection H as H. exfalso. revert H. apply set_scene_grows. reflexivity.
  - intros H. apply (Voxel_input_place_rejected self n st v Hv H).
Qed.

(** X9. The placement guard at the edges of a cell.  When the player stands
    at whole-number coordinates [(a, b, c)], a right click is refused
    exactly for the target [(a, b, c)].  When the player's [x] is exactly
    halfway between [a] and [a + 1], the refused target is the one whose
    [x] is the even one of the two ([round] breaks ties to even), so moving
    half a block can leave the refused cell where it was or shift it. *)
Theorem guard_at_cell_edges (self : nat) (n : Vec3) (st : State) (v : Voxel)
  (col : Color) (a b c : Z) :
  nth_error (scene st) self = Some v ->
  dict_get BLOCK_TYPES (current_block_type st) = Some col ->
  (player st = mkPlayer (inject_Z a) (inject_Z b) (inject_Z c) ->
     (Voxel_input self true n "right mouse down" st = Ok st
      <-> Vec3_add (position v) n = vec3 a b c))
  /\ (player st = mkPlayer (inject_Z a + (1 # 2)) (inject_Z b) (inject_Z c) ->
        (Voxel_input self true n "right mouse down" st = Ok st
         <-> Vec3_add (position v) n
             = vec3 (if Z.even a then a else a + 1) b c)).
Proof.
  intros Hv Hcol. split; intros Hp;
    rewrite (place_refused_iff self n st v col Hv Hcol), Hp;
    unfold actor_cell; simpl;
    rewrite ?py_round_half, !py_round_Z; reflexivity.
Qed.

Lemma guard_at_cell_edges_witness :
  Voxel_input 0 true (vec3 1 0 0) "right mouse down"
    (mkState [block "grass" 1 0 0] "dirt" (selected_text "dirt")
             (mkPlayer (inject_Z 1 + (1 # 2)) (inject_Z 0) (inject_Z 0)))
  = Ok (mkState [block "grass" 1 0 0] "dirt" (selected_text "dirt")
                (mkPlayer (inject_Z 1 + (1 # 2)) (inject_Z 0) (inject_Z 0))).
Proof.
  apply (proj2 (proj2 (guard_at_cell_edges 0 (vec3 1 0 0)
    (mkState [block "grass" 1 0 0] "dirt" (selected_text "dirt")
             (mkPlayer (inject_Z 1 + (1 # 2)) (inject_Z 0) (inject_Z 0)))
    (block "grass" 1 0 0) (color.rgb 139 69 19) 1 0 0 eq_refl eq_refl)
    eq_refl)).
  reflexivity.
Defined.

(** ** Invariants of a session *)

Lemma selectable_registered (bt : string) :
  In bt selectable ->
  bt <> "bedrock"%string /\ exists col, dict_get BLOCK_TYPES bt = Some col.
Proof.
  unfold selectable, block_map. simpl.
  intros [<-|[<-|[<-|[<-|[]]]]]; (split; [discriminate | eexists; reflexivity]).
Qed.

Lemma Forall_remove_nth {A : Type} (P : A -> Prop) (l : list A) (i : nat) :
  Forall P l -> Forall P (remove_nth i l).
Proof.
  rewrite !Forall_forall. intros H a Ha. apply H. eapply in_remove_nth; eauto.
Qed.

Lemma call_keeps_session (U : PyText) (c : Call) (st st' : State) :
  session_ok st -> call U c st = Ok st' ->
  session_ok st'
  /\ filter is_bedrock (scene st') = filter is_bedrock (scene st).
Proof.
  intros (Hsel & Htxt & Hcat) H. destruct c as [self hovered n key|key|p];
    simpl in H.
  - destruct (Voxel_input_cases self hovered n key st)
      as [[-> _]|[[-> _]|E]].
    + rewrite Voxel_input_right in H.
      destruct (nth_error (scene st) self) as [v|];
        [|injection H as <-; repeat split; auto].
      destruct (hovered && _); [|injection H as <-; repeat split; auto].
      unfold Voxel_init in H.
      destruct (dict_get BLOCK_TYPES (current_block_type st)) as [col|] eqn:Hc;
        simpl in H; [|discriminate].
      injection H as <-. unfold session_ok. simpl.
      destruct (selectable_registered _ Hsel) as [Hnb _].
      repeat split; auto.
      * apply Forall_app. split; [exact Hcat|].
        constructor; [exact Hc | constructor].
      * rewrite filter_app. simpl. unfold is_bedrock at 2. simpl.
        apply String.eqb_neq in Hnb. rewrite Hnb. apply app_nil_r.
    + rewrite Voxel_input_left in H.
      destruct (nth_error (scene st) self) as [v|] eqn:Hv;
        [|injection H as <-; repeat split; auto].
      destruct hovered; [|injection H as <-; repeat split; auto].
      destruct (String.eqb (block_type v) "bedrock") eqn:Hb; simpl in H;
        injection H as <-; [repeat split; auto|].
      unfold session_ok. simpl. repeat split; auto.
      * apply Forall_remove_nth. exact Hcat.
      * apply (filter_remove_nth_false is_bedrock _ _ v Hv). exact Hb.
    + rewrite E in H. injection H as <-. repeat split; auto.
  - destruct (input_cases U key st)
      as [(bt & Hin & E)|[(e & _ & _ & E)|[(v & _ & _ & _ & _ & E)|(_ & E)]]];
      rewrite E in H; try discriminate; injection H as <-.
    + destruct (fall_reset_spec (with_selection bt st)) as (Hs & Hc & Ht & _).
      unfold session_ok. rewrite Hs, Hc, Ht. simpl. repeat split; auto.
      apply (in_map snd _ _ Hin).
    + destruct (fall_reset_spec st) as (Hs & Hc & Ht & _).
      unfold session_ok. rewrite Hs, Hc, Ht. repeat split; auto.
  - injection H as <-. repeat split; auto.
Qed.

Lemma call_raises_input (U : PyText) (c : Call) (st : State) (e : exn) :
  session_ok st -> call U c st = Raise e ->
  exists key, c = InputCall key /\ input U key st = Raise e.
Proof.
  intros (Hsel & _ & _) H. destruct c as [self hovered n key|key|p];
    simpl in H.
  - exfalso. destruct (selectable_registered _ Hsel) as [_ (col & Hc)].
    destruct (Voxel_input_cases self hovered n key st)
      as [[-> _]|[[-> _]|E]].
    + rewrite Voxel_input_right in H.
      destruct (nth_error (scene st) self); [|discriminate].
      destruct (hovered && _); [|discriminate].
      unfold Voxel_init in H. rewrite Hc in H. discriminate.
    + rewrite Voxel_input_left in H.
      destruct (nth_error (scene st) self); [|discriminate].
      destruct (hovered && _); discriminate.
    + rewrite E in H. discriminate.
  - exists key. auto.
  - discriminate.
Qed.

Lemma run_keeps_session (U : PyText) (calls : list Call) :
  forall st st', session_ok st -> run U calls st = Ok st' ->
    session_ok st'
    /\ filter is_bedrock (scene st') = filter is_bedrock (scene st).
Proof.
  unfold run. induction calls as [|c calls IH]; intros st st' Hok H; simpl in H.
  - injection H as <-. auto.
  - destruct (call U c st) as [st1|e] eqn:E; simpl in H; [|discriminate].
    destruct (call_keeps_session U c st st1 Hok E) as [Hok1 Hb1].
    destruct (IH st1 st' Hok1 H) as [Hok' Hb']. split; [exact Hok'|].
    congruence.
Qed.

Lemma generated_catalog_ok (noise : Q -> Q -> Q) (ws wh : Z) :
  Forall catalog_ok (generated_scene noise ws wh).
Proof.
  apply Forall_forall. intros v Hv.
  apply in_generated_scene in Hv as (x & z & _ & _ & Hv).
  apply in_layering_recipe in Hv
    as (bt & y & -> & [[-> _]|[[-> _]|[[-> _]|[-> _]]]]); reflexivity.
Qed.

Lemma initial_session_ok (sc : Scene) :
  Forall catalog_ok sc -> session_ok (initial_state sc).
Proof.
  intros H. repeat split; [left; reflexivity | exact H].
Qed.

(** ** The generated world, column by column *)

Lemma filter_flat_map {A B : Type} (p : B -> bool) (f : A -> list B) (l : list A) :
  filter p (flat_map f l) = flat_map (fun a => filter p (f a)) l.
Proof.
  induction l as [|a l IH]; simpl; [reflexivity|].
  now rewrite filter_app, IH.
Qed.

Lemma filter_const {A : Type} (p : A -> bool) (b : bool) (l : list A) :
  (forall a, In a l -> p a = b) -> filter p l = if b then l else [].
Proof.
  induction l as [|a l IH]; intros H; simpl.
  - destruct b; reflexivity.
  - rewrite (H a (or_introl eq_refl)), IH by (intros; apply H; right; assumption).
    destruct b; reflexivity.
Qed.

Lemma flat_map_nil {A B : Type} (g : A -> list B) (l : list A) :
  (forall a, In a l -> g a = []) -> flat_map g l = [].
Proof.
  induction l as [|a l IH]; intros H; simpl; [reflexivity|].
  rewrite (H a (or_introl eq_refl)), IH by (intros; apply H; right; assumption).
  reflexivity.
Qed.

Lemma flat_map_pick {A B : Type} (g : A -> list B) (l : list A) (x : A) :
  NoDup l -> In x l -> (forall a, In a l -> a <> x -> g a = []) ->
  flat_map g l = g x.
Proof.
  intros Hnd. induction Hnd as [|a l Hnotin Hnd IH]; intros Hin Hg; simpl.
  - contradiction.
  - destruct Hin as [->|Hin].
    + rewrite flat_map_nil; [apply app_nil_r|].
      intros a Ha. apply Hg; [right; exact Ha | congruence].
    + rewrite (Hg a (or_introl eq_refl)) by congruence. simpl.
      apply IH; [exact Hin|]. intros b Hb. apply Hg. right. exact Hb.
Qed.

Lemma length_flat_map_const {A B : Type} (f : A -> list B) (l : list A) (k : nat) :
  (forall a, In a l -> List.length (f a) = k) ->
  List.length (flat_map f l) = (k * List.length l)%nat.
Proof.
  induction l as [|a l IH]; intros H; simpl; [lia|].
  rewrite length_app, (H a (or_introl eq_refl)), IH
    by (intros; apply H; right; assumption).
  lia.
Qed.

Lemma length_py_range (a b : Z) : List.length (py_range a b) = Z.to_nat (b - a).
Proof.
  unfold py_range. now rewrite length_map, length_seq.
Qed.

Lemma length_py_range_down (a b : Z) :
  List.length (py_range_down a b) = Z.to_nat (a - b).
Proof.
  unfold py_range_down. now rewrite length_map, length_seq.
Qed.

Lemma recipe_in_column (x z x' h z' : Z) :
  filter (in_column x z) (layering_recipe x' h z')
  = if (x' =? x) && (z' =? z) then layering_recipe x' h z' else [].
Proof.
  apply filter_const. intros v Hv.
  apply in_layering_recipe in Hv as (bt & y & -> & _). reflexivity.
Qed.

Lemma generated_column (noise : Q -> Q -> Q) (ws wh x z : Z) :
  0 <= x < ws -> 0 <= z < ws ->
  column_of x z (generated_scene noise ws wh)
  = layering_recipe x (column_height noise wh x z) z.
Proof.
  intros Hx Hz. unfold column_of, generated_scene.
  rewrite filter_flat_map.
  rewrite (flat_map_pick _ _ z (NoDup_py_range 0 ws)).
  - rewrite filter_flat_map.
    rewrite (flat_map_pick _ _ x (NoDup_py_range 0 ws)).
    + rewrite recipe_in_column, !Z.eqb_refl. reflexivity.
    + apply in_py_range. exact Hx.
    + intros a _ Ha. rewrite recipe_in_column.
      apply Z.eqb_neq in Ha. rewrite Ha. reflexivity.
  - apply in_py_range. exact Hz.
  - intros b _ Hb. rewrite filter_flat_map. apply flat_map_nil.
    intros a _. rewrite recipe_in_column.
    apply Z.eqb_neq in Hb. rewrite Hb, andb_false_r. reflexivity.
Qed.

Lemma filter_stone_run (bt : string) (x z : Z) (l : list Z) :
  filter (has_type bt) (map (fun d => block "stone" x d z) l)
  = if String.eqb "stone" bt then map (fun d => block "stone" x d z) l else [].
Proof.
  apply filter_const. intros v Hv. apply in_map_iff in Hv as (d & <- & _).
  reflexivity.
Qed.

Lemma recipe_census (x h z : Z) :
  count_type "grass" (layering_recipe x h z) = 1%nat
  /\ count_type "dirt" (layering_recipe x h z) = 2%nat
  /\ count_type "stone" (layering_recipe x h z) = Z.to_nat (h - 2)
  /\ count_type "bedrock" (layering_recipe x h z) = 1%nat
  /\ List.length (layering_recipe x h z) = (4 + Z.to_nat (h - 2))%nat.
Proof.
  unfold count_type, layering_recipe.
  repeat split; rewrite ?filter_app, ?filter_stone_run, ?length_app; simpl;
    rewrite ?length_app, ?length_map, ?length_py_range_down; simpl; lia.
Qed.

(** X10. Restricted to a column of the footprint, the generated world is
    that column's layers and nothing else, in the order they were created;
    the column holds one grass, two dirt and one bedrock voxel, and
    [max(0, height - 2)] stone voxels, [4 + max(0, height - 2)] in all. *)
Theorem column_census (noise : Q -> Q -> Q) (ws wh x z : Z) :
  0 <= x < ws -> 0 <= z < ws ->
  let col := column_of x z (generated_scene noise ws wh) in
  let h := column_height noise wh x z in
  col = layering_recipe x h z
  /\ count_type "grass" col = 1%nat
  /\ count_type "dirt" col = 2%nat
  /\ count_type "stone" col = Z.to_nat (Z.max 0 (h - 2))
  /\ count_type "bedrock" col = 1%nat
  /\ List.length col = (4 + Z.to_nat (Z.max 0 (h - 2)))%nat.
Proof.
  intros Hx Hz col h. unfold col. rewrite (generated_column noise ws wh x z Hx Hz).
  fold h. destruct (recipe_census x h z) as (Hg & Hd & Hs & Hb & Hl).
  replace (Z.to_nat (Z.max 0 (h - 2))) with (Z.to_nat (h - 2)) by lia.
  auto 6.
Qed.

Lemma column_census_witness :
  count_type "stone" (column_of 1 0 (generated_scene (fun _ _ => 1 # 2) 2 8))
  = 2%nat.
Proof.
  apply (proj1 (proj2 (proj2 (proj2
    (column_census (fun _ _ => 1 # 2) 2 8 1 0 ltac:(lia) ltac:(lia)))))).
Defined.

Lemma generated_count (noise : Q -> Q -> Q) (ws wh : Z) (bt : string) (k : nat) :
  (forall x h z, count_type bt (layering_recipe x h z) = k) ->
  count_type bt (generated_scene noise ws wh)
  = (k * (Z.to_nat ws * Z.to_nat ws))%nat.
Proof.
  intros Hk. unfold count_type, generated_scene.
  rewrite filter_flat_map.
  rewrite (length_flat_map_const _ _ (k * Z.to_nat ws)).
  - rewrite length_py_range. replace (ws - 0) with ws by lia. lia.
  - intros z _. rewrite filter_flat_map.
    rewrite (length_flat_map_const _ _ k).
    + rewrite length_py_range. replace (ws - 0) with ws by lia. reflexivity.
    + intros x _. apply Hk.
Qed.

(** X11. The generated world holds exactly [world_size^2] grass voxels,
    twice as many dirt voxels and [world_size^2] bedrock voxels, whatever
    the noise; every bedrock voxel is at [y = -1].  For a [world_size] that
    is zero or negative nothing at all is generated. *)
Theorem world_census (noise : Q -> Q -> Q) (ws wh : Z) :
  let n := Z.to_nat ws in
  count_type "grass" (generated_scene noise ws wh) = (n * n)%nat
  /\ count_type "dirt" (generated_scene noise ws wh) = (2 * (n * n))%nat
  /\ count_type "bedrock" (generated_scene noise ws wh) = (n * n)%nat
  /\ (forall v, In v (generated_scene noise ws wh) ->
        block_type v = "bedrock"%string -> vy (position v) = -1)
  /\ (ws <= 0 -> generate noise ws wh [] = Ok []).
Proof.
  intros n. unfold n.
  split; [|split; [|split; [|split]]].
  - rewrite (generated_count noise ws wh "grass" 1); [lia|].
    intros x h z. apply recipe_census.
  - rewrite (generated_count noise ws wh "dirt" 2); [lia|].
    intros x h z. apply recipe_census.
  - rewrite (generated_count noise ws wh "bedrock" 1); [lia|].
    intros x h z. apply recipe_census.
  - intros v Hv Hb. apply in_generated_scene in Hv as (x & z & _ & _ & Hv).
    apply in_layering_recipe in Hv
      as (bt & y & -> & [[-> _]|[[-> _]|[[-> _]|[_ ->]]]]);
      simpl in Hb; try discriminate. reflexivity.
  - intros Hws. rewrite generate_recipe. simpl. f_equal.
    unfold generated_scene, py_range.
    replace (Z.to_nat (ws - 0)) with 0%nat by lia. reflexivity.
Qed.

Lemma world_census_witness :
  generate (fun _ _ => 1 # 2) (-3) 8 [] = Ok [].
Proof.
  apply (proj2 (proj2 (proj2 (proj2 (world_census (fun _ _ => 1 # 2) (-3) 8))))).
  lia.
Defined.

(** ** Where generation writes *)

(** X12. Generation never writes outside the footprint: every generated
    voxel has [0 <= x < world_size] and [0 <= z < world_size], and its
    level lies between the lower of [height - 2] and [-1] and the higher of
    [height] and [-1], for the height of its column. *)
Theorem generation_bounds (noise : Q -> Q -> Q) (ws wh : Z) (v : Voxel) :
  In v (generated_scene noise ws wh) ->
  let p := position v in
  let h := column_height noise wh (vx p) (vz p) in
  0 <= vx p < ws /\ 0 <= vz p < ws
  /\ Z.min (h - 2) (-1) <= vy p <= Z.max h (-1).
Proof.
  intros Hv. apply in_generated_scene in Hv as (x & z & Hx & Hz & Hv).
  apply in_layering_recipe in Hv as (bt & y & -> & Hcases). simpl.
  split; [exact Hx|]. split; [exact Hz|].
  destruct Hcases as [[_ ->]|[[_ [->| ->]]|[[_ Hy]|[_ ->]]]]; lia.
Qed.

Lemma generation_bounds_witness :
  0 <= vx (position (block "stone" 1 0 1)) < 2.
Proof.
  apply (generation_bounds (fun _ _ => 1 # 2) 2 8 (block "stone" 1 0 1)).
  apply in_generated_scene. exists 1, 1.
  split; [lia|]. split; [lia|]. vm_compute. auto 6.
Defined.

Lemma column_height_range (noise : Q -> Q -> Q) (wh x z : Z) :
  (forall a b, - (1) <= noise a b <= 1)%Q -> 0 <= wh ->
  - wh <= column_height noise wh x z <= wh.
Proof.
  intros Hn Hwh. unfold column_height.
  set (s := noise (inject_Z x * freq)%Q (inject_Z z * freq)%Q).
  assert (Hs : (- (1) <= s <= 1)%Q) by apply Hn.
  assert (Hw : (inject_Z 0 <= inject_Z wh)%Q) by (rewrite <- Zle_Qle; exact Hwh).
  change (inject_Z 0) with 0%Q in Hw.
  split.
  - rewrite <- (Qfloor_Z (- wh)). apply Qfloor_resp_le.
    rewrite inject_Z_opp. nra.
  - rewrite <- (Qfloor_Z wh) at 2. apply Qfloor_resp_le. nra.
Qed.

(** X13. With a noise that stays within [-1, 1] and a non-negative height
    scale, every generated voxel lies between [-world_height - 2] and
    [world_height].  For the script's [world_height = 8] this is [-10 .. 8]:
    the whole terrain is below the spawn height 13 ("start above the
    world") and none of it is under the fall-reset level -10. *)
Theorem terrain_range (noise : Q -> Q -> Q) (ws : Z) :
  (forall a b, - (1) <= noise a b <= 1)%Q ->
  (forall wh v, 0 <= wh -> In v (generated_scene noise ws wh) ->
     - wh - 2 <= vy (position v) <= wh)
  /\ (forall v, In v (generated_scene noise ws world_height) ->
        (inject_Z (vy (position v)) < player_y spawn_position)%Q
        /\ ~ (inject_Z (vy (position v)) < inject_Z (-10))%Q).
Proof.
  intros Hn.
  assert (G : forall wh v, 0 <= wh -> In v (generated_scene noise ws wh) ->
                - wh - 2 <= vy (position v) <= wh).
  { intros wh v Hwh Hv.
    apply in_generated_scene in Hv as (x & z & _ & _ & Hv).
    pose proof (column_height_range noise wh x z Hn Hwh) as Hh.
    apply in_layering_recipe in Hv as (bt & y & -> & Hcases). simpl.
    destruct Hcases as [[_ ->]|[[_ [->| ->]]|[[_ Hy]|[_ ->]]]]; lia. }
  split; [exact G|].
  intros v Hv. specialize (G world_height v ltac:(unfold world_height; lia) Hv).
  unfold world_height in G. unfold spawn_position, world_height. simpl.
  rewrite <- !Zlt_Qlt. lia.
Qed.

Lemma terrain_range_witness :
  - 8 - 2 <= vy (position (block "grass" 0 4 0)) <= 8.
Proof.
  apply (proj1 (terrain_range (fun _ _ => 1 # 2) 1
                  ltac:(intros; split; discriminate))
           8 (block "grass" 0 4 0) ltac:(lia)).
  vm_compute. auto.
Defined.

(** ** When generated columns overlap *)

Lemma NoDup_flat_map_part {A B : Type} (f : A -> list B) (l : list A) (a : A) :
  NoDup (flat_map f l) -> In a l -> NoDup (f a).
Proof.
  intros Hnd Hin. apply in_split in Hin as (l1 & l2 & ->).
  rewrite flat_map_app in Hnd. simpl in Hnd.
  apply NoDup_app_remove_l in Hnd. apply NoDup_app_remove_r in Hnd. exact Hnd.
Qed.

Lemma recipe_overlap (x h z : Z) :
  -1 <= h <= 1 -> ~ NoDup (map position (layering_recipe x h z)).
Proof.
  intros Hh Hnd. rewrite recipe_positions in Hnd.
  assert (E : h = -1 \/ h = 0 \/ h = 1) by lia.
  destruct E as [->|[->| ->]]; vm_compute in Hnd.
  - apply NoDup_cons_iff in Hnd as [Hn _]. apply Hn. simpl. auto.
  - apply NoDup_cons_iff in Hnd as [_ Hnd].
    apply NoDup_cons_iff in Hnd as [Hn _]. apply Hn. simpl. auto.
  - apply NoDup_cons_iff in Hnd as [_ Hnd].
    apply NoDup_cons_iff in Hnd as [_ Hnd].
    apply NoDup_cons_iff in Hnd as [Hn _]. apply Hn. simpl. auto.
Qed.

(** X14. Two generated voxels share a coordinate exactly when some column
    of the footprint has height -1, 0 or 1 (its grass, its upper dirt or
    its lower dirt then lands on the bedrock level): the generated world has pairwise
    distinct coordinates if and only if every column's height is at least 2
    or at most -2. *)
Theorem generated_unique_iff (noise : Q -> Q -> Q) (ws wh : Z) :
  unique_occupancy (generated_scene noise ws wh) <->
  (forall x z, 0 <= x < ws -> 0 <= z < ws ->
     2 <= column_height noise wh x z \/ column_height noise wh x z <= -2).
Proof.
  split; [|apply generated_unique].
  intros Hu x z Hx Hz.
  destruct (Z_le_gt_dec 2 (column_height noise wh x z)) as [|Hlt]; [left; assumption|].
  destruct (Z_le_gt_dec (column_height noise wh x z) (-2)) as [|Hgt]; [right; assumption|].
  exfalso. apply (recipe_overlap x (column_height noise wh x z) z); [lia|].
  unfold unique_occupancy, generated_scene in Hu.
  rewrite map_flat_map_comm in Hu.
  apply (NoDup_flat_map_part _ _ z) in Hu; [|apply in_py_range; exact Hz].
  cbv beta in Hu. rewrite map_flat_map_comm in Hu.
  apply (NoDup_flat_map_part _ _ x) in Hu; [|apply in_py_range; exact Hx].
  exact Hu.
Qed.

(** ** What every session keeps *)

(** X15. In every run of handler calls from start-up that returns, the
    selection is one of grass, dirt, stone and wood (never bedrock), and the
    label reads "Selected: " followed by the capitalised selection. *)
Theorem run_selection (U : PyText) (noise : Q -> Q -> Q) (ws wh : Z)
  (calls : list Call) (st' : State) :
  run U calls (initial_state (generated_scene noise ws wh)) = Ok st' ->
  In (current_block_type st') ["grass"; "dirt"; "stone"; "wood"]%string
  /\ current_block_type st' <> "bedrock"%string
  /\ current_block_text st'
     = ("Selected: " ++ capitalize (current_block_type st'))%string.
Proof.
  intros H.
  destruct (run_keeps_session U calls _ _
              (initial_session_ok _ (generated_catalog_ok noise ws wh)) H)
    as [(Hsel & Htxt & _) _].
  split; [exact Hsel|]. split; [|exact Htxt].
  apply (selectable_registered _ Hsel).
Qed.

Lemma run_selection_witness :
  In "stone"%string ["grass"; "dirt"; "stone"; "wood"]%string.
Proof.
  apply (proj1 (run_selection ascii_text (fun _ _ => 0%Q) 1 8
    [InputCall "3"; VoxelInputCall 0 true (vec3 0 1 0) "right mouse down";
     PlayerMoves (mkPlayer 0 (-20) 0); InputCall "w"]
    (mkState (generated_scene (fun _ _ => 0%Q) 1 8 ++ [block "stone" 0 1 0])
             "stone" "Selected: Stone" spawn_position)
    eq_refl)).
Defined.

(** X16. No run from start-up ever raises the constructor's [ValueError]:
    every placement finds its type in the catalogue, and no call of the
    voxel handler raises at all.  A run can end in an exception only at a
    call of the key handler, with a key that passes [key.isdigit()] and is
    not one of "1" to "4": the exception is the one [int(key)] raises, or
    the [KeyError] of the table lookup. *)
Theorem run_raises (U : PyText) (noise : Q -> Q -> Q) (ws wh : Z)
  (calls : list Call) (e : exn) :
  run U calls (initial_state (generated_scene noise ws wh)) = Raise e ->
  exists key, In (InputCall key) calls
    /\ isdigit U key = true
    /\ ~ In key ["1"; "2"; "3"; "4"]%string
    /\ (py_int U key = Raise e \/ e = KeyError key).
Proof.
  intros H.
  assert (Hok := initial_session_ok _ (generated_catalog_ok noise ws wh)).
  revert H Hok. generalize (initial_state (generated_scene noise ws wh)).
  unfold run. induction calls as [|c calls IH]; intros st H Hok; simpl in H.
  - discriminate.
  - destruct (call U c st) as [st1|e1] eqn:E; simpl in H.
    + destruct (call_keeps_session U c st st1 Hok E) as [Hok1 _].
      destruct (IH st1 H Hok1) as (key & Hin & Hrest).
      exists key. split; [right; exact Hin | exact Hrest].
    + injection H as <-.
      destruct (call_raises_input U c st e1 Hok E) as (key & -> & Hr).
      exists key. split; [left; reflexivity|].
      change ["1"; "2"; "3"; "4"]%string with (map fst block_map).
      destruct (input_cases U key st)
        as [(bt & _ & E')|[(e & Hd & Hi & E')|[(v & Hd & Hi & _ & Hm & E')
                                              |(_ & E')]]];
        rewrite E' in Hr; try discriminate; injection Hr as <-.
      * split; [exact Hd|]. split; [|left; exact Hi].
        intros Hk. apply in_map_iff in Hk as ([k bt] & Hk & Hin). simpl in Hk.
        subst k. clear - Hin Hi. unfold block_map in Hin. simpl in Hin.
        destruct Hin as [H|[H|[H|[H|[]]]]]; injection H as <- <-; discriminate.
      * apply dict_get_None in Hm. auto.
Qed.

Lemma run_raises_witness :
  exists key,
    In (InputCall key) [InputCall "2"; InputCall "003"; InputCall "1"]
    /\ isdigit ascii_text key = true
    /\ ~ In key ["1"; "2"; "3"; "4"]%string
    /\ (py_int ascii_text key = Raise (KeyError "003")
        \/ KeyError "003" = KeyError key).
Proof.
  apply (run_raises ascii_text (fun _ _ => 0%Q) 1 8
           [InputCall "2"; InputCall "003"; InputCall "1"] (KeyError "003")).
  reflexivity.
Defined.

(** X17. Bedrock is conserved: after any run from start-up the bedrock
    voxels of the scene are the generated ones, in the same order, so there
    are [world_size^2] of them, all at [y = -1].  The player can neither
    remove nor add bedrock. *)
Theorem run_bedrock (U : PyText) (noise : Q -> Q -> Q) (ws wh : Z)
  (calls : list Call) (st' : State) :
  run U calls (initial_state (generated_scene noise ws wh)) = Ok st' ->
  filter is_bedrock (scene st')
  = filter is_bedrock (generated_scene noise ws wh)
  /\ count_type "bedrock" (scene st') = (Z.to_nat ws * Z.to_nat ws)%nat
  /\ (forall v, In v (scene st') -> block_type v = "bedrock"%string ->
        vy (position v) = -1).
Proof.
  intros H.
  destruct (run_keeps_session U calls _ _
              (initial_session_ok _ (generated_catalog_ok noise ws wh)) H)
    as [_ Hb].
  simpl in Hb. split; [exact Hb|]. split.
  - unfold count_type. change (has_type "bedrock") with is_bedrock.
    rewrite Hb. change is_bedrock with (has_type "bedrock").
    fold (count_type "bedrock" (generated_scene noise ws wh)).
    rewrite (generated_count noise ws wh "bedrock" 1); [lia|].
    intros x h z. apply recipe_census.
  - intros v Hv Hbt.
    assert (Hin : In v (filter is_bedrock (scene st'))).
    { apply filter_In. split; [exact Hv|].
      unfold is_bedrock. rewrite Hbt. reflexivity. }
    rewrite Hb in Hin. apply filter_In in Hin as [Hin _].
    apply in_generated_scene in Hin as (x & z & _ & _ & Hin).
    apply in_layering_recipe in Hin
      as (bt & y & -> & [[-> _]|[[-> _]|[[-> _]|[_ ->]]]]);
      simpl in Hbt; try discriminate. reflexivity.
Qed.

Lemma run_bedrock_witness :
  count_type "bedrock"
    (generated_scene (fun _ _ => 0%Q) 1 8 ++ [block "stone" 0 1 0])
  = 1%nat.
Proof.
  apply (proj1 (proj2 (run_bedrock ascii_text (fun _ _ => 0%Q) 1 8
    [InputCall "3"; VoxelInputCall 3 true (vec3 0 1 0) "left mouse down";
     VoxelInputCall 0 true (vec3 0 1 0) "right mouse down"]
    (mkState (generated_scene (fun _ _ => 0%Q) 1 8 ++ [block "stone" 0 1 0])
             "stone" "Selected: Stone" spawn_position)
    eq_refl))).
Defined.

(** X18. After any run from start-up every voxel of the scene has one of
    the five catalogued types and carries the catalogue's colour for it. *)
Theorem run_catalog (U : PyText) (noise : Q -> Q -> Q) (ws wh : Z)
  (calls : list Call) (st' : State) (v : Voxel) :
  run U calls (initial_state (generated_scene noise ws wh)) = Ok st' ->
  In v (scene st') ->
  In (block_type v) ["grass"; "dirt"; "stone"; "bedrock"; "wood"]%string
  /\ dict_get BLOCK_TYPES (block_type v) = Some (voxel_color v).
Proof.
  intros H Hv.
  destruct (run_keeps_session U calls _ _
              (initial_session_ok _ (generated_catalog_ok noise ws wh)) H)
    as [(_ & _ & Hcat) _].
  rewrite Forall_forall in Hcat. specialize (Hcat v Hv). unfold catalog_ok in Hcat.
  split; [|exact Hcat].
  change ["grass"; "dirt"; "stone"; "bedrock"; "wood"]%string
    with (map fst BLOCK_TYPES).
  destruct (in_dec string_dec (block_type v) (map fst BLOCK_TYPES)) as [Hi|Hn];
    [exact Hi|].
  apply dict_get_None in Hn. congruence.
Qed.

Lemma run_catalog_witness :
  dict_get BLOCK_TYPES (block_type (block "wood" 0 1 0))
  = Some (voxel_color (block "wood" 0 1 0)).
Proof.
  apply (proj2 (run_catalog ascii_text (fun _ _ => 0%Q) 1 8
    [InputCall "4"; VoxelInputCall 0 true (vec3 0 1 0) "right mouse down"]
    (mkState (generated_scene (fun _ _ => 0%Q) 1 8 ++ [block "wood" 0 1 0])
             "wood" "Selected: Wood" spawn_position)
    (block "wood" 0 1 0) eq_refl ltac:(vm_compute; auto 6))).
Defined.

(** ** The guard keeps the player's cell clear *)

Lemma blocks_at_remove_nth_split (sc : Scene) (i : nat) (v : Voxel) :
  nth_error sc i = Some v ->
  exists l1 l2,
    blocks_at (position v) sc = l1 ++ block_type v :: l2
    /\ blocks_at (position v) (remove_nth i sc) = l1 ++ l2.
Proof.
  revert i. induction sc as [|w sc IH]; intros [|i] Hv; simpl in *;
    try discriminate.
  - injection Hv as ->. exists [], (blocks_at (position v) sc).
    unfold blocks_at. simpl.
    rewrite (proj2 (Vec3_eqb_eq (position v) (position v)) eq_refl).
    split; reflexivity.
  - destruct (IH i Hv) as (l1 & l2 & H1 & H2).
    unfold blocks_at in *. simpl.
    destruct (Vec3_eqb (position w) (position v)); simpl.
    + exists (block_type w :: l1), l2. rewrite H1, H2. split; reflexivity.
    + exists l1, l2. auto.
Qed.

(** X19. No click ever puts a block into the cell the player occupies.
    After any call of the voxel handler that returns, the blocks at the
    player's rounded position are exactly those that were there before, or
    those with one of them taken out (a left click on a voxel standing in
    that cell); a right click leaves them exactly as they were.  An empty
    player cell stays empty. *)
Theorem click_keeps_actor_cell_clear (self : nat) (hovered : bool) (n : Vec3)
  (key : string) (st st' : State) :
  Voxel_input self hovered n key st = Ok st' ->
  let c := actor_cell (player st) in
  actor_cell (player st') = c
  /\ (blocks_at c (scene st') = blocks_at c (scene st)
      \/ exists l1 bt l2,
           blocks_at c (scene st) = l1 ++ bt :: l2
           /\ blocks_at c (scene st') = l1 ++ l2)
  /\ (key = "right mouse down"%string ->
        blocks_at c (scene st') = blocks_at c (scene st))
  /\ (blocks_at c (scene st) = [] -> blocks_at c (scene st') = []).
Proof.
  intros H c.
  assert (G : player st' = player st
              /\ (blocks_at c (scene st') = blocks_at c (scene st)
                  \/ (key <> "right mouse down"%string
                      /\ exists l1 bt l2,
                           blocks_at c (scene st) = l1 ++ bt :: l2
                           /\ blocks_at c (scene st') = l1 ++ l2))).
  { destruct (Voxel_input_cases self hovered n key st) as [[-> _]|[[-> _]|E]].
    - rewrite Voxel_input_right in H.
      destruct (nth_error (scene st) self) as [v|];
        [|injection H as <-; auto].
      destruct hovered; [|injection H as <-; auto]. simpl in H.
      destruct (Vec3_eqb _ _) eqn:E; simpl in H; [injection H as <-; auto|].
      unfold Voxel_init in H.
      destruct (dict_get BLOCK_TYPES (current_block_type st)) as [col|];
        simpl in H; [|discriminate].
      injection H as <-. simpl. split; [reflexivity|]. left.
      rewrite blocks_at_app, blocks_at_single. simpl.
      fold c in E. rewrite E, app_nil_r. reflexivity.
    - rewrite Voxel_input_left in H.
      destruct (nth_error (scene st) self) as [v|] eqn:Hv;
        [|injection H as <-; auto].
      destruct (hovered && _); injection H as <-; auto.
      simpl. split; [reflexivity|].
      destruct (Vec3_eqb (position v) c) eqn:E.
      + apply Vec3_eqb_eq in E. right. split; [discriminate|].
        destruct (blocks_at_remove_nth_split (scene st) self v Hv)
          as (l1 & l2 & H1 & H2).
        rewrite E in H1, H2. exists l1, (block_type v), l2. auto.
      + apply Vec3_eqb_neq in E. left.
        apply (blocks_at_remove_nth_other c _ _ v Hv E).
    - rewrite E in H. injection H as <-. auto. }
  destruct G as [Hp Hcell]. split; [unfold c; now rewrite Hp|].
  split; [|split].
  - destruct Hcell as [Hsame|(_ & Hdrop)]; [left; exact Hsame | right; exact Hdrop].
  - intros Hk. destruct Hcell as [Hsame|(Hnk & _)]; [exact Hsame | contradiction].
  - intros Hempty. destruct Hcell as [Hsame|(_ & l1 & bt & l2 & H1 & _)].
    + rewrite Hsame. exact Hempty.
    + rewrite Hempty in H1. destruct l1; discriminate.
Qed.

Lemma click_keeps_actor_cell_clear_witness :
  blocks_at (vec3 0 1 0) (scene standing_state) = [].
Proof.
  apply (proj2 (proj2 (proj2 (click_keeps_actor_cell_clear 0 true (vec3 0 1 0)
    "right mouse down" standing_state standing_state eq_refl)))).
  reflexivity.
Defined.
